(** * teleop_twist_keyboard: keyboard teleoperation node

    A shallow embedding of [src/teleop_twist_keyboard.py] and the
    properties of its key dispatch, speed scaling, message construction,
    shutdown sequence and thread interleaving.

    Python [float] is IEEE 754 binary64 and is modelled by Rocq's primitive
    [float]; Python [int] is modelled by [Z]; the two dictionaries are
    [gmap]s keyed by strings. *)

From Stdlib Require Import ZArith Floats Bool List Ascii String Lia.
From stdpp Require Import gmap strings.

Set Warnings "-inexact-float".

(** ** Python numbers *)

Module Py.

(** The attributes [x], [y], [z], [th] hold either an [int] taken from
    [move_bindings] or the [float] literal [0.0]; the factors of
    [speed_bindings] mix [float] literals and the [int] literal [1]. *)
Inductive num : Type :=
| Int (n : Z)
| Float (f : float).

(** [float(n)]: the nearest binary64 value, ties to even.  CPython raises
    [OverflowError] beyond the binary64 range; the integers of this
    program are -1, 0 and 1. *)
Definition float_of_int (n : Z) : float :=
  SF2Prim (binary_normalize prec emax n 0 false).

Definition to_float (a : num) : float :=
  match a with
  | Int n => float_of_int n
  | Float f => f
  end.

(** [a * s] where [s] is a float: the other operand is converted first. *)
Definition mul_float (a : num) (s : float) : float :=
  (to_float a * s)%float.

(** [s * a] where [s] is a float. *)
Definition float_mul (s : float) (a : num) : float :=
  (s * to_float a)%float.

(** Truth value of a [str]: non-empty. *)
Definition truthy (s : string) : bool :=
  match s with
  | EmptyString => false
  | String _ _ => true
  end.

(** A dictionary display: items are inserted left to right, a later
    duplicate key overwriting an earlier one. *)
Definition dict {V : Type} (items : list (string * V)) : gmap string V :=
  foldl (fun m kv => <[kv.1 := kv.2]> m) ∅ items.

End Py.

(** ** Messages of [geometry_msgs.msg] *)

(** [builtin_interfaces/Time], as nanoseconds. *)
Definition Time : Type := Z.

Module Vector3.
Record t : Type := mk { x : float; y : float; z : float }.
Definition default : t := mk 0 0 0.
Definition set_x (v : float) (u : t) : t := mk v (y u) (z u).
Definition set_y (v : float) (u : t) : t := mk (x u) v (z u).
Definition set_z (v : float) (u : t) : t := mk (x u) (y u) v.
End Vector3.

Module Twist.
Record t : Type := mk { linear : Vector3.t; angular : Vector3.t }.
Definition default : t := mk Vector3.default Vector3.default.
Definition set_linear (f : Vector3.t -> Vector3.t) (m : t) : t :=
  mk (f (linear m)) (angular m).
Definition set_angular (f : Vector3.t -> Vector3.t) (m : t) : t :=
  mk (linear m) (f (angular m)).
End Twist.

Module Header.
Record t : Type := mk { stamp : Time; frame_id : string }.
Definition default : t := mk 0%Z EmptyString.
Definition set_stamp (v : Time) (h : t) : t := mk v (frame_id h).
Definition set_frame_id (v : string) (h : t) : t := mk (stamp h) v.
End Header.

Module TwistStamped.
Record t : Type := mk { header : Header.t; twist : Twist.t }.
Definition default : t := mk Header.default Twist.default.
Definition set_header (f : Header.t -> Header.t) (m : t) : t :=
  mk (f (header m)) (twist m).
Definition set_twist (f : Twist.t -> Twist.t) (m : t) : t :=
  mk (header m) (f (twist m)).
End TwistStamped.

(** What the publisher hands to the transport. *)
Inductive Msg : Type :=
| MsgTwist (m : Twist.t)
| MsgTwistStamped (m : TwistStamped.t).

(** [self.twist_msg_type]: [TwistStamped] when [stamped], else [Twist]. *)
Definition twist_msg_type (stamped : bool) : Type :=
  if stamped then TwistStamped.t else Twist.t.

Definition new_twist_msg (stamped : bool) : twist_msg_type stamped :=
  match stamped with
  | true => TwistStamped.default
  | false => Twist.default
  end.

Definition to_msg {stamped : bool} : twist_msg_type stamped -> Msg :=
  match stamped with
  | true => MsgTwistStamped
  | false => MsgTwist
  end.

(** The six velocity fields of a message, whichever variant it is. *)
Definition twist_of (m : Msg) : Twist.t :=
  match m with
  | MsgTwist t => t
  | MsgTwistStamped ts => TwistStamped.twist ts
  end.

(** The header of a stamped message. *)
Definition header_of (m : Msg) : option Header.t :=
  match m with
  | MsgTwist _ => None
  | MsgTwistStamped ts => Some (TwistStamped.header ts)
  end.

(** ** The bindings *)

Definition move_bindings : gmap string (Z * Z * Z * Z) :=
  Py.dict
    [ ("i", (1, 0, 0, 0)%Z);
      ("o", (1, 0, 0, -1)%Z);
      ("j", (0, 0, 0, 1)%Z);
      ("l", (0, 0, 0, -1)%Z);
      ("u", (1, 0, 0, 1)%Z);
      (",", (-1, 0, 0, 0)%Z);
      (".", (-1, 0, 0, 1)%Z);
      ("m", (-1, 0, 0, -1)%Z);
      ("O", (1, -1, 0, 0)%Z);
      ("I", (1, 0, 0, 0)%Z);
      ("J", (0, 1, 0, 0)%Z);
      ("L", (0, -1, 0, 0)%Z);
      ("U", (1, 1, 0, 0)%Z);
      ("<", (-1, 0, 0, 0)%Z);
      (">", (-1, -1, 0, 0)%Z);
      ("M", (-1, 1, 0, 0)%Z);
      ("t", (0, 0, 1, 0)%Z);
      ("b", (0, 0, -1, 0)%Z) ].

Definition speed_bindings : gmap string (Py.num * Py.num) :=
  Py.dict
    [ ("q", (Py.Float 1.1, Py.Float 1.1));
      ("z", (Py.Float 0.9, Py.Float 0.9));
      ("w", (Py.Float 1.1, Py.Int 1));
      ("x", (Py.Float 0.9, Py.Int 1));
      ("e", (Py.Int 1, Py.Float 1.1));
      ("c", (Py.Int 1, Py.Float 0.9)) ].

(** The character ETX, which a raw terminal delivers for CTRL-C. *)
Definition CTRL_C : string := String (Ascii.ascii_of_nat 3) EmptyString.

(** ** The node *)

Module Node.

Record t : Type := mk {
  stamped : bool;
  frame_id : string;
  repeat_rate : float;
  speed : float;
  turn : float;
  x : Py.num;
  y : Py.num;
  z : Py.num;
  th : Py.num;
  twist_msg : twist_msg_type stamped;
  status : Z;
  running : bool
}.

Definition set_speed (v : float) (s : t) : t :=
  mk (stamped s) (frame_id s) (repeat_rate s) v (turn s)
     (x s) (y s) (z s) (th s) (twist_msg s) (status s) (running s).
Definition set_turn (v : float) (s : t) : t :=
  mk (stamped s) (frame_id s) (repeat_rate s) (speed s) v
     (x s) (y s) (z s) (th s) (twist_msg s) (status s) (running s).
Definition set_x (v : Py.num) (s : t) : t :=
  mk (stamped s) (frame_id s) (repeat_rate s) (speed s) (turn s)
     v (y s) (z s) (th s) (twist_msg s) (status s) (running s).
Definition set_y (v : Py.num) (s : t) : t :=
  mk (stamped s) (frame_id s) (repeat_rate s) (speed s) (turn s)
     (x s) v (z s) (th s) (twist_msg s) (status s) (running s).
Definition set_z (v : Py.num) (s : t) : t :=
  mk (stamped s) (frame_id s) (repeat_rate s) (speed s) (turn s)
     (x s) (y s) v (th s) (twist_msg s) (status s) (running s).
Definition set_th (v : Py.num) (s : t) : t :=
  mk (stamped s) (frame_id s) (repeat_rate s) (speed s) (turn s)
     (x s) (y s) (z s) v (twist_msg s) (status s) (running s).
Definition set_twist_msg (s : t) (m : twist_msg_type (stamped s)) : t :=
  mk (stamped s) (frame_id s) (repeat_rate s) (speed s) (turn s)
     (x s) (y s) (z s) (th s) m (status s) (running s).
Definition set_status (v : Z) (s : t) : t :=
  mk (stamped s) (frame_id s) (repeat_rate s) (speed s) (turn s)
     (x s) (y s) (z s) (th s) (twist_msg s) v (running s).
Definition set_running (v : bool) (s : t) : t :=
  mk (stamped s) (frame_id s) (repeat_rate s) (speed s) (turn s)
     (x s) (y s) (z s) (th s) (twist_msg s) (status s) v.

(** The velocity intent and the speed scales, as tuples. *)
Definition intent (s : t) : Py.num * Py.num * Py.num * Py.num :=
  (x s, y s, z s, th s).
Definition scales (s : t) : float * float := (speed s, turn s).

End Node.

(** The ROS parameters read by [__init__]. *)
Record Params : Type := mkParams {
  param_stamped : bool;
  param_frame_id : string;
  param_repeat_rate : float
}.

Definition default_params : Params := mkParams false EmptyString 10.

Inductive exn : Type :=
| Exception (message : string)
| ZeroDivisionError
| KeyboardInterrupt
| OtherError.

(** The attributes as [__init__] leaves them when it raises nothing. *)
Definition new_node (p : Params) : Node.t :=
  Node.mk (param_stamped p) (param_frame_id p) (param_repeat_rate p)
    0.5 1.0
    (Py.Float 0) (Py.Float 0) (Py.Float 0) (Py.Float 0)
    (new_twist_msg (param_stamped p))
    0%Z true.

(** [TeleopTwistKeyboard.__init__].  The period of the timer is
    [1.0/self.repeat_rate], which raises for a zero rate. *)
Definition init (p : Params) : exn + Node.t :=
  if negb (param_stamped p) && Py.truthy (param_frame_id p) then
    inl (Exception "'frame_id' can only be set when 'stamped' is True")
  else if PrimFloat.eqb (param_repeat_rate p) 0 then
    inl ZeroDivisionError
  else
    inr (new_node p).

(** ** The keyboard thread *)

(** Lines written to the console. *)
Inductive console : Type :=
| HELP_MSG
| vels (speed turn : float)
| keyboard_thread_exception.

(** The statements of the body of the [while] loop of [get_key_loop], one
    constructor per source line.  Each is executed without interruption;
    another thread may run between two of them. *)
Inductive stmt : Type :=
| AssignX (v : Py.num)
| AssignY (v : Py.num)
| AssignZ (v : Py.num)
| AssignTh (v : Py.num)
| ScaleSpeed (f : Py.num)
| ScaleTurn (f : Py.num)
| PrintVels
| PrintHelpIfDue
| NextStatus
| QuitLoop.

(** The branch of the loop body taken for [key]: the lines it executes. *)
Definition loop_body (key : string) : list stmt :=
  match move_bindings !! key with
  | Some (bx, by_, bz, bth) =>
      [ AssignX (Py.Int bx);
        AssignY (Py.Int by_);
        AssignZ (Py.Int bz);
        AssignTh (Py.Int bth) ]
  | None =>
      match speed_bindings !! key with
      | Some (fl, fa) =>
          [ ScaleSpeed fl;
            ScaleTurn fa;
            PrintVels;
            PrintHelpIfDue;
            NextStatus ]
      | None =>
          [ AssignX (Py.Float 0);
            AssignY (Py.Float 0);
            AssignZ (Py.Float 0);
            AssignTh (Py.Float 0) ]
          ++ (if String.eqb key CTRL_C then [QuitLoop] else [])
      end
  end.

Definition exec (st : stmt) (s : Node.t) : Node.t * list console :=
  match st with
  | AssignX v => (Node.set_x v s, [])
  | AssignY v => (Node.set_y v s, [])
  | AssignZ v => (Node.set_z v s, [])
  | AssignTh v => (Node.set_th v s, [])
  | ScaleSpeed f => (Node.set_speed (Py.float_mul (Node.speed s) f) s, [])
  | ScaleTurn f => (Node.set_turn (Py.float_mul (Node.turn s) f) s, [])
  | PrintVels => (s, [vels (Node.speed s) (Node.turn s)])
  | PrintHelpIfDue => (s, if (Node.status s =? 14)%Z then [HELP_MSG] else [])
  | NextStatus => (Node.set_status ((Node.status s + 1) mod 15)%Z s, [])
  | QuitLoop => (Node.set_running false s, [])
  end.

(** The statements run in order; [QuitLoop] ends with [break], so nothing
    after it is run. *)
Fixpoint exec_all (sts : list stmt) (s : Node.t) : Node.t * list console :=
  match sts with
  | [] => (s, [])
  | QuitLoop :: _ => exec QuitLoop s
  | st :: rest =>
      let '(s1, out1) := exec st s in
      let '(s2, out2) := exec_all rest s1 in
      (s2, out1 ++ out2)
  end.

(** One iteration of the loop, once [get_key] has returned [key]. *)
Definition process_key (key : string) (s : Node.t) : Node.t * list console :=
  exec_all (loop_body key) s.

(** What [get_key] delivers: a one-character string, or an exception. *)
Inductive key_input : Type :=
| Key (k : string)
| ReadError.

(** The [while self.running] loop run on its own, over the keystrokes
    still to come.  [QuitLoop] clears [running], so the test at the head of
    the loop stands for its [break]; with no keystroke left the thread
    blocks in [get_key]. *)
Fixpoint key_loop (inputs : list key_input) (s : Node.t)
  : Node.t * list console :=
  if Node.running s then
    match inputs with
    | [] => (s, [])
    | Key k :: rest =>
        let '(s1, out1) := process_key k s in
        let '(s2, out2) := key_loop rest s1 in
        (s2, out1 ++ out2)
    | ReadError :: _ =>
        (Node.set_running false s, [keyboard_thread_exception])
    end
  else (s, []).

Definition get_key_loop (inputs : list key_input) (s : Node.t)
  : Node.t * list console :=
  let '(s', out) := key_loop inputs s in
  (s', HELP_MSG :: vels (Node.speed s) (Node.turn s) :: out).

(** ** The publisher *)

Definition update_twist_msg {stamped : bool}
    (hdr : Header.t -> Header.t) (body : Twist.t -> Twist.t)
  : twist_msg_type stamped -> twist_msg_type stamped :=
  match stamped with
  | true => fun m => TwistStamped.set_twist body (TwistStamped.set_header hdr m)
  | false => fun m => body m
  end.

(** The timer callback; [now] is the reading of the node's clock. *)
Definition publish_twist (now : Time) (s : Node.t) : Node.t * Msg :=
  let hdr h :=
    let h := Header.set_stamp now h in
    let h := Header.set_frame_id (Node.frame_id s) h in
    h in
  let body twist :=
    let twist := Twist.set_linear (Vector3.set_x (Py.mul_float (Node.x s) (Node.speed s))) twist in
    let twist := Twist.set_linear (Vector3.set_y (Py.mul_float (Node.y s) (Node.speed s))) twist in
    let twist := Twist.set_linear (Vector3.set_z (Py.mul_float (Node.z s) (Node.speed s))) twist in
    let twist := Twist.set_angular (Vector3.set_x 0) twist in
    let twist := Twist.set_angular (Vector3.set_y 0) twist in
    let twist := Twist.set_angular (Vector3.set_z (Py.mul_float (Node.th s) (Node.turn s))) twist in
    twist in
  let m := update_twist_msg hdr body (Node.twist_msg s) in
  (Node.set_twist_msg s m, to_msg m).

Inductive event : Type :=
| Published (m : Msg)
| TerminalRestored
| NodeDestroyed
| RclpyShutdown
| KeyThreadJoined.

(** [stop]: only the stamp of the header is written, not its frame. *)
Definition stop (now : Time) (s : Node.t) : Node.t * list event :=
  let hdr h := Header.set_stamp now h in
  let body twist :=
    let twist := Twist.set_linear (Vector3.set_x 0) twist in
    let twist := Twist.set_linear (Vector3.set_y 0) twist in
    let twist := Twist.set_linear (Vector3.set_z 0) twist in
    let twist := Twist.set_angular (Vector3.set_x 0) twist in
    let twist := Twist.set_angular (Vector3.set_y 0) twist in
    let twist := Twist.set_angular (Vector3.set_z 0) twist in
    twist in
  let m := update_twist_msg hdr body (Node.twist_msg s) in
  (Node.set_twist_msg s m, [Published (to_msg m); TerminalRestored]).

(** ** The two threads together *)

(** While [rclpy.spin] runs, the timer callback runs in the main thread and
    the keyboard loop in its own.  A schedule says which of them takes the
    next step: the keyboard thread one statement, the timer one whole
    callback.  (The interpreter may also switch threads inside the
    callback; every schedule here is one it can produce.) *)
Inductive action : Type :=
| KeyThread
| Timer (now : Time).

Record world : Type := mkWorld {
  node : Node.t;
  pending : list stmt;
  inputs : list key_input;
  alive : bool;
  printed : list console;
  published : list Msg
}.

(** The state when [key_thread.start()] returns. *)
Definition start (s : Node.t) (keys : list key_input) : world :=
  mkWorld s [] keys true [HELP_MSG; vels (Node.speed s) (Node.turn s)] [].

Definition key_thread_step (w : world) : world :=
  if alive w then
    match pending w with
    | st :: rest =>
        let '(s1, out) := exec st (node w) in
        match st with
        | QuitLoop => mkWorld s1 [] (inputs w) false (printed w ++ out) (published w)
        | _ => mkWorld s1 rest (inputs w) true (printed w ++ out) (published w)
        end
    | [] =>
        if Node.running (node w) then
          match inputs w with
          | [] => w
          | Key k :: keys =>
              mkWorld (node w) (loop_body k) keys true (printed w) (published w)
          | ReadError :: keys =>
              mkWorld (Node.set_running false (node w)) [] keys false
                (printed w ++ [keyboard_thread_exception]) (published w)
          end
        else mkWorld (node w) [] (inputs w) false (printed w) (published w)
    end
  else w.

Definition timer_step (now : Time) (w : world) : world :=
  let '(s1, m) := publish_twist now (node w) in
  mkWorld s1 (pending w) (inputs w) (alive w) (printed w) (published w ++ [m]).

Definition step (w : world) (a : action) : world :=
  match a with
  | KeyThread => key_thread_step w
  | Timer now => timer_step now w
  end.

Definition run (sched : list action) (w : world) : world :=
  foldl step w sched.

(** ** [main] *)

(** [main]: [keys] are the keystrokes the terminal will deliver, [sched]
    what happens while [rclpy.spin] runs, [spin_exit] how it ends ([None]:
    it returns) and [now] the clock when [stop] runs.  The result is the
    list of external effects and the exception that leaves [main].  The
    keyboard thread may still be running during the [finally] block; it
    assigns to no attribute that [stop] reads or writes. *)
Definition main (p : Params) (keys : list key_input) (sched : list action)
    (spin_exit : option exn) (now : Time) : list event * option exn :=
  match init p with
  | inl e => ([], Some e)
  | inr s0 =>
      let w := run sched (start s0 keys) in
      let s1 := Node.set_running false (node w) in
      let '(s2, evs) := stop now s1 in
      (map Published (published w) ++ evs ++ [NodeDestroyed; RclpyShutdown]
         ++ (if alive w then [KeyThreadJoined] else []),
       match spin_exit with
       | Some KeyboardInterrupt => None
       | other => other
       end)
  end.

Definition published_msgs (evs : list event) : list Msg :=
  omap (fun e => match e with Published m => Some m | _ => None end) evs.

(** ** Vocabulary of the properties *)

Definition after_key (key : string) (p : Params) : option Node.t :=
  match init p with
  | inr s0 => Some (process_key key s0).1
  | inl _ => None
  end.

(** The distinct tuples bound in [move_bindings]. *)
Definition bound_tuples : gset (Z * Z * Z * Z) := map_img move_bindings.

(** The float by which a speed key multiplies each scale. *)
Definition linear_factor (key : string) : float :=
  match speed_bindings !! key with
  | Some (fl, _) => Py.to_float fl
  | None => 1
  end.

Definition angular_factor (key : string) : float :=
  match speed_bindings !! key with
  | Some (_, fa) => Py.to_float fa
  | None => 1
  end.

(** The product of [factors] taken left to right from [start], in float
    arithmetic: [((start * f1) * f2) * ...]. *)
Definition ordered_product (start : float) (factors : list float) : float :=
  foldl PrimFloat.mul start factors.

(** The scales after the keys [keys], pressed from the defaults. *)
Definition scales_after (keys : list string) : float * float :=
  Node.scales (get_key_loop (Key <$> keys) (new_node default_params)).1.

(** [a] is within [eps] of [b]. *)
Definition close_to (eps a b : float) : bool :=
  PrimFloat.ltb (PrimFloat.abs (a - b)) eps.

(** The intent no keystroke has yet replaced, and the one a stop leaves. *)
Definition zero_intent : Py.num * Py.num * Py.num * Py.num :=
  (Py.Float 0, Py.Float 0, Py.Float 0, Py.Float 0).

(** An intent as one keystroke leaves it once all its assignments are done:
    the zero tuple, or a tuple bound in [move_bindings]. *)
Definition whole_intent (i : Py.num * Py.num * Py.num * Py.num) : Prop :=
  i = zero_intent
  \/ exists (key : string) (bx by_ bz bth : Z),
       move_bindings !! key = Some (bx, by_, bz, bth)
       /\ i = (Py.Int bx, Py.Int by_, Py.Int bz, Py.Int bth).

(** What one statement does to the intent. *)
Definition stmt_intent (i : Py.num * Py.num * Py.num * Py.num) (st : stmt)
  : Py.num * Py.num * Py.num * Py.num :=
  let '(ix, iy, iz, ith) := i in
  match st with
  | AssignX v => (v, iy, iz, ith)
  | AssignY v => (ix, v, iz, ith)
  | AssignZ v => (ix, iy, v, ith)
  | AssignTh v => (ix, iy, iz, v)
  | _ => i
  end.

(** The intent once the statements still pending have run. *)
Fixpoint pending_intent (sts : list stmt)
    (i : Py.num * Py.num * Py.num * Py.num)
  : Py.num * Py.num * Py.num * Py.num :=
  match sts with
  | [] => i
  | QuitLoop :: _ => i
  | st :: rest => pending_intent rest (stmt_intent i st)
  end.

(** The invariant of the two threads: once the statements the keyboard
    thread still has pending have run, the intent is whole. *)
Definition intent_invariant (w : world) : Prop :=
  whole_intent (pending_intent (pending w) (Node.intent (node w))).

(** The keyboard thread has started on a keystroke and not finished it. *)
Definition mid_keystroke (w : world) : bool :=
  match pending w with
  | [] => false
  | _ :: _ => true
  end.

(** For each tick of a schedule, in order: whether the keyboard thread was
    in the middle of a keystroke, and the intent the tick read. *)
Fixpoint tick_views (sched : list action) (w : world)
  : list (bool * (Py.num * Py.num * Py.num * Py.num)) :=
  match sched with
  | [] => []
  | KeyThread :: rest => tick_views rest (step w KeyThread)
  | Timer now :: rest =>
      (mid_keystroke w, Node.intent (node w))
      :: tick_views rest (step w (Timer now))
  end.

(** The keystrokes [u] then [J], and a schedule in which the keyboard
    thread reads [u], runs its four assignments, reads [J], runs the
    assignments to [x] and [y], and then the timer fires. *)
Definition torn_keys : list key_input := [Key "u"; Key "J"].
Definition torn_schedule : list action :=
  replicate 8 KeyThread ++ [Timer 0%Z].

(** ** The terminal *)

(** [sys.platform == 'win32'], or not. *)
Inductive platform : Type :=
| win32
| posix.

(** The terminal as the three terminal functions see it: its attributes
    (what [termios.tcgetattr] returns and [termios.tcsetattr] sets, of a
    type [attrs] left open) and the keystrokes waiting to be read. *)
Record terminal (attrs : Type) : Type := mkTerminal {
  tty_attrs : attrs;
  tty_input : list key_input
}.

Arguments mkTerminal {attrs} _ _.
Arguments tty_attrs {attrs} _.
Arguments tty_input {attrs} _.

(** [save_terminal_settings]: [None] on Windows. *)
Definition save_terminal_settings {attrs : Type} (pf : platform)
    (t : terminal attrs) : option attrs :=
  match pf with
  | win32 => None
  | posix => Some (tty_attrs t)
  end.

(** [restore_terminal_settings]; the result is [None] where
    [termios.tcsetattr] raises because [self.settings] is [None]. *)
Definition restore_terminal_settings {attrs : Type} (pf : platform)
    (settings : option attrs) (t : terminal attrs) : option (terminal attrs) :=
  match pf with
  | win32 => Some t
  | posix =>
      match settings with
      | Some a => Some (mkTerminal a (tty_input t))
      | None => None
      end
  end.

(** How a call of [get_key] ends: it returns a key, it raises, or it waits
    in the read for a keystroke that has not come. *)
Inductive get_key_result (attrs : Type) : Type :=
| Returned (key : string) (t : terminal attrs)
| Raised (t : terminal attrs)
| Waiting (t : terminal attrs).

Arguments Returned {attrs} _ _.
Arguments Raised {attrs} _.
Arguments Waiting {attrs} _.

(** [get_key]; [setraw] is what [tty.setraw] makes of the attributes.  On
    Windows [msvcrt.getwch] reads and the attributes are not touched.
    Elsewhere the terminal is set raw, one character is read, and the
    saved settings are written back, which is skipped when the read
    raises. *)
Definition get_key {attrs : Type} (setraw : attrs -> attrs) (pf : platform)
    (settings : option attrs) (t : terminal attrs) : get_key_result attrs :=
  match pf with
  | win32 =>
      match tty_input t with
      | [] => Waiting t
      | Key k :: rest => Returned k (mkTerminal (tty_attrs t) rest)
      | ReadError :: rest => Raised (mkTerminal (tty_attrs t) rest)
      end
  | posix =>
      let raw := setraw (tty_attrs t) in
      match tty_input t with
      | [] => Waiting (mkTerminal raw [])
      | Key k :: rest =>
          match settings with
          | Some a => Returned k (mkTerminal a rest)
          | None => Raised (mkTerminal raw rest)
          end
      | ReadError :: rest => Raised (mkTerminal raw rest)
      end
  end.

(** The terminal a call of [get_key] leaves. *)
Definition terminal_of {attrs : Type} (r : get_key_result attrs)
  : terminal attrs :=
  match r with
  | Returned _ t => t
  | Raised t => t
  | Waiting t => t
  end.

(** ** Vocabulary of the further properties *)

(** What the keyboard thread reads and writes of the node. *)
Definition velocity_state (s : Node.t)
  : Py.num * Py.num * Py.num * Py.num * (float * float) * Z * bool :=
  (Node.intent s, Node.scales s, Node.status s, Node.running s).

(** How often the help text, and how often a status line, appears in
    console output. *)
Definition help_lines (out : list console) : nat :=
  length (omap (fun c => match c with HELP_MSG => Some tt | _ => None end) out).

Definition vels_lines (out : list console) : nat :=
  length (omap (fun c => match c with vels _ _ => Some tt | _ => None end) out).

(** The intent a key assigns: its bound tuple for a movement key, the zero
    tuple for a key bound nowhere, none for a speed key. *)
Definition key_intent (key : string)
  : option (Py.num * Py.num * Py.num * Py.num) :=
  match move_bindings !! key with
  | Some (bx, by_, bz, bth) =>
      Some (Py.Int bx, Py.Int by_, Py.Int bz, Py.Int bth)
  | None =>
      match speed_bindings !! key with
      | Some _ => None
      | None => Some zero_intent
      end
  end.

(** The speed keys among [keys], in order. *)
Definition speed_keys (keys : list string) : list string :=
  filter (fun k => is_Some (speed_bindings !! k)) keys.

(** The clock readings of the ticks of a schedule, and the number of steps
    it gives the keyboard thread. *)
Definition tick_times (sched : list action) : list Time :=
  omap (fun a => match a with Timer now => Some now | KeyThread => None end) sched.

Definition key_thread_steps (sched : list action) : nat :=
  length (omap (fun a => match a with KeyThread => Some tt | Timer _ => None end) sched).

(** What the keyboard thread can see and change of a world: everything but
    the message object and the list of published messages. *)
Definition key_view (w : world)
  : (Py.num * Py.num * Py.num * Py.num * (float * float) * Z * bool)
    * list stmt * list key_input * bool * list console :=
  (velocity_state (node w), pending w, inputs w, alive w, printed w).

(** Steps of the keyboard thread that are enough to work through [ins]:
    one to read each keystroke and one for each statement of its branch. *)
Fixpoint steps_needed (ins : list key_input) : nat :=
  match ins with
  | [] => 0
  | Key k :: rest => S (length (loop_body k)) + steps_needed rest
  | ReadError :: rest => 1 + steps_needed rest
  end.

(** The header a tick at [now] writes, for a node configured [stamped]
    and [frame]. *)
Definition tick_header (stamped : bool) (frame : string) (now : Time)
  : option Header.t :=
  if stamped then Some (Header.mk now frame) else None.

(** A float whose sign bit is clear and which is a number: [+0], a
    positive finite value or [+infinity]. *)
Definition sign_clear (f : float) : bool :=
  match Prim2SF f with
  | S754_zero false | S754_finite false _ _ | S754_infinity false => true
  | _ => false
  end.

(** The same without [+infinity]. *)
Definition finite_sign_clear (f : float) : bool :=
  match Prim2SF f with
  | S754_zero false | S754_finite false _ _ => true
  | _ => false
  end.

(** A factor that is finite and positive. *)
Definition positive_finite (a : Py.num) : bool :=
  match Prim2SF (Py.to_float a) with
  | S754_finite false _ _ => true
  | _ => false
  end.

(** [v], [-v] or [0] as the direction [b] is 1, -1 or 0. *)
Definition signed (b : Z) (v : float) : float :=
  match b with
  | Z0 => 0
  | Zpos _ => v
  | Zneg _ => - v
  end.

(** A direction component as the bindings use them: -1, 0 or 1. *)
Definition unit_direction (b : Z) : bool :=
  (b =? -1)%Z || (b =? 0)%Z || (b =? 1)%Z.

(** * Properties *)

(** ** Float arithmetic: multiplying by one is exact *)

Section MulOne.

Let two52 : positive := 4503599627370496%positive.

Lemma digits2_pos_two52 (m : positive) :
  Z.pos (digits2_pos (m * two52)) = (Z.pos (digits2_pos m) + 52)%Z.
Proof.
  unfold two52. rewrite Pos.mul_comm. simpl. rewrite Pos.mul_1_l. lia.
Qed.

Lemma shift_right_two52 (m : positive) :
  SpecFloat.iter_pos shr_1 52
    {| shr_m := Z.pos (m * two52); shr_r := false; shr_s := false |}
  = {| shr_m := Z.pos m; shr_r := false; shr_s := false |}.
Proof.
  unfold two52. rewrite Pos.mul_comm. reflexivity.
Qed.

Lemma SF64mul_one_r (a : spec_float) :
  valid_binary a = true ->
  SF64mul a (S754_finite false two52 (-52)) = a.
Proof.
  destruct a as [sg | sg | | sg m e]; cbn [SF64mul SFmul];
    try (intros _; first [reflexivity | now destruct sg]).
  intros Hv.
  unfold SpecFloat.valid_binary, bounded, canonical_mantissa in Hv.
  apply andb_prop in Hv as [Hc He].
  apply Z.eqb_eq in Hc.
  unfold binary_round_aux, shr_fexp.
  cbn [Zdigits2]. rewrite digits2_pos_two52.
  replace (Z.pos (digits2_pos m) + 52 + (e + -52))%Z
    with (Z.pos (digits2_pos m) + e)%Z by lia.
  rewrite Hc.
  replace (e - (e + -52))%Z with 52%Z by lia.
  cbn [shr shr_record_of_loc]. rewrite shift_right_two52.
  cbn [shr_m loc_of_shr_record round_nearest_even Zdigits2].
  replace (e + -52 + 52)%Z with e by lia.
  rewrite Hc, Z.sub_diag. cbn [shr shr_m].
  rewrite He. now destruct sg.
Qed.

Lemma float_mul_one_r (f : float) : (f * 1)%float = f.
Proof.
  apply Prim2SF_inj. rewrite mul_spec.
  change (Prim2SF 1) with (S754_finite false two52 (-52)).
  apply SF64mul_one_r, Prim2SF_valid.
Qed.

End MulOne.

Lemma float_mul_int_one (s : float) : Py.float_mul s (Py.Int 1) = s.
Proof.
  unfold Py.float_mul.
  change (Py.to_float (Py.Int 1)) with 1%float.
  apply float_mul_one_r.
Qed.

(** ** Record plumbing *)

Lemma twist_of_update {b : bool} (hdr : Header.t -> Header.t)
    (body : Twist.t -> Twist.t) (m : twist_msg_type b) :
  twist_of (to_msg (update_twist_msg hdr body m))
  = body (twist_of (to_msg m)).
Proof. destruct b; reflexivity. Qed.

Lemma header_of_update {b : bool} (hdr : Header.t -> Header.t)
    (body : Twist.t -> Twist.t) (m : twist_msg_type b) :
  header_of (to_msg (update_twist_msg hdr body m))
  = hdr <$> header_of (to_msg m).
Proof. destruct b; reflexivity. Qed.

Lemma header_of_stamped {b : bool} (m : twist_msg_type b) :
  b = true -> is_Some (header_of (to_msg m)).
Proof. intros ->. cbn. eauto. Qed.

(** The message of a tick, field by field. *)
Lemma publish_twist_twist (now : Time) (s : Node.t) :
  twist_of (publish_twist now s).2
  = Twist.mk
      (Vector3.mk (Py.mul_float (Node.x s) (Node.speed s))
                  (Py.mul_float (Node.y s) (Node.speed s))
                  (Py.mul_float (Node.z s) (Node.speed s)))
      (Vector3.mk 0 0 (Py.mul_float (Node.th s) (Node.turn s))).
Proof. unfold publish_twist. cbn [snd]. now rewrite twist_of_update. Qed.

Lemma stop_twist (now : Time) (s : Node.t) :
  published_msgs (stop now s).2
  = [to_msg (Node.twist_msg (stop now s).1)]
  /\ twist_of (to_msg (Node.twist_msg (stop now s).1)) = Twist.default.
Proof.
  unfold stop. cbn [fst snd published_msgs omap Node.twist_msg Node.set_twist_msg].
  split; [reflexivity | now rewrite twist_of_update].
Qed.

(** ** C1: what a tick publishes *)

(** C1.  Whatever the intent and the scales are, the message published by a
    tick has linear components [x*speed], [y*speed], [z*speed], angular z
    component [th*turn] and angular x and y components zero.  With the
    default scales 0.5 and 1.0 and the key [i] pressed, the message has
    linear (0.5, 0, 0) and angular (0, 0, 0). *)
Theorem publish_twist_scales_intent :
  (forall (now : Time) (s : Node.t),
      let tw := twist_of (publish_twist now s).2 in
      Vector3.x (Twist.linear tw) = Py.mul_float (Node.x s) (Node.speed s)
      /\ Vector3.y (Twist.linear tw) = Py.mul_float (Node.y s) (Node.speed s)
      /\ Vector3.z (Twist.linear tw) = Py.mul_float (Node.z s) (Node.speed s)
      /\ Vector3.x (Twist.angular tw) = 0%float
      /\ Vector3.y (Twist.angular tw) = 0%float
      /\ Vector3.z (Twist.angular tw) = Py.mul_float (Node.th s) (Node.turn s))
  /\ (forall now : Time,
         (fun s => twist_of (publish_twist now s).2) <$> after_key "i" default_params
         = Some (Twist.mk (Vector3.mk 0.5 0 0) (Vector3.mk 0 0 0))).
Proof.
  split.
  - intros now s tw. subst tw. rewrite publish_twist_twist. cbn. tauto.
  - intros now. vm_compute. reflexivity.
Qed.

(** ** C2: any other key stops *)

(** C2.  A keystroke bound neither in [move_bindings] nor in
    [speed_bindings] sets the intent to the zero tuple and leaves both
    scales as they were. *)
Theorem unbound_key_zeroes_intent (key : string) (s : Node.t) :
  move_bindings !! key = None ->
  speed_bindings !! key = None ->
  Node.intent (process_key key s).1
  = (Py.Float 0, Py.Float 0, Py.Float 0, Py.Float 0)
  /\ Node.scales (process_key key s).1 = Node.scales s.
Proof.
  intros Hm Hs. unfold process_key, loop_body. rewrite Hm, Hs.
  destruct (String.eqb key CTRL_C); split; reflexivity.
Qed.

Lemma unbound_key_zeroes_intent_witness :
  Node.intent (process_key " " (new_node default_params)).1
  = (Py.Float 0, Py.Float 0, Py.Float 0, Py.Float 0)
  /\ Node.scales (process_key " " (new_node default_params)).1
     = Node.scales (new_node default_params).
Proof.
  apply (unbound_key_zeroes_intent " " (new_node default_params));
    vm_compute; reflexivity.
Defined.

(** Space, [#], the empty string of an end of input and CTRL-C are bound in
    neither dictionary. *)
Example unbound_keys :
  Forall (fun key => move_bindings !! key = None /\ speed_bindings !! key = None)
    [" "; "#"; EmptyString; CTRL_C].
Proof. repeat constructor. Qed.

(** [u], then space, then a tick, from the defaults: the message is zero. *)
Example space_after_u_publishes_zero (now : Time) :
  twist_of
    (publish_twist now
       (get_key_loop [Key "u"; Key " "] (new_node default_params)).1).2
  = Twist.default.
Proof. vm_compute. reflexivity. Qed.

(** ** C3: the movement bindings *)

Lemma process_move_key (key : string) (bx by_ bz bth : Z) (s : Node.t) :
  move_bindings !! key = Some (bx, by_, bz, bth) ->
  (process_key key s).1
  = Node.set_th (Py.Int bth)
      (Node.set_z (Py.Int bz) (Node.set_y (Py.Int by_) (Node.set_x (Py.Int bx) s))).
Proof.
  intros Hm. unfold process_key, loop_body. rewrite Hm. reflexivity.
Qed.

(** C3, as the code has it.  [move_bindings] has exactly 18 keys; pressing
    one of them overwrites the intent with the tuple bound to it and leaves
    the scales alone; the 18 tuples take exactly 16 distinct values (only
    [i]/[I] and [,]/[<] share a tuple). *)
Theorem move_key_sets_bound_tuple :
  size move_bindings = 18
  /\ (forall (key : string) (bx by_ bz bth : Z) (s : Node.t),
         move_bindings !! key = Some (bx, by_, bz, bth) ->
         Node.intent (process_key key s).1
         = (Py.Int bx, Py.Int by_, Py.Int bz, Py.Int bth)
         /\ Node.scales (process_key key s).1 = Node.scales s)
  /\ size bound_tuples = 16
  /\ move_bindings !! "i" = move_bindings !! "I"
  /\ move_bindings !! "," = move_bindings !! "<".
Proof.
  split; [vm_compute; reflexivity |].
  split; [| vm_compute; auto].
  intros key bx by_ bz bth s Hm.
  rewrite (process_move_key key bx by_ bz bth s Hm). split; reflexivity.
Qed.

Lemma move_key_sets_bound_tuple_witness :
  Node.intent (process_key "u" (new_node default_params)).1
  = (Py.Int 1, Py.Int 0, Py.Int 0, Py.Int 1)
  /\ Node.scales (process_key "u" (new_node default_params)).1
     = Node.scales (new_node default_params).
Proof.
  apply (proj1 (proj2 move_key_sets_bound_tuple)
           "u" 1%Z 0%Z 0%Z 1%Z (new_node default_params)).
  vm_compute. reflexivity.
Defined.

(** C3, as stated, fails: the bound tuples do not take 11 distinct values. *)
Lemma bound_tuples_not_eleven : size bound_tuples <> 11.
Proof. vm_compute. discriminate. Qed.

(** ** C4, C5, C10: the speed bindings *)

(** The six speed keys and the floats they multiply by. *)
Example speed_factor_table :
  dom speed_bindings = {["q"; "z"; "w"; "x"; "e"; "c"]}
  /\ (fun key => (linear_factor key, angular_factor key))
       <$> ["q"; "z"; "w"; "x"; "e"; "c"]
     = [ (1.1, 1.1); (0.9, 0.9); (1.1, 1); (0.9, 1); (1, 1.1); (1, 0.9) ]%float.
Proof. split; vm_compute; reflexivity. Qed.

Lemma speed_key_not_move_key (key : string) :
  is_Some (speed_bindings !! key) -> move_bindings !! key = None.
Proof.
  intros [f Hf].
  assert (H : map_Forall (fun k _ => move_bindings !! k = None) speed_bindings)
    by (apply (bool_decide_unpack _); vm_compute; exact I).
  exact (H key f Hf).
Qed.

Lemma process_speed_key (key : string) (s : Node.t) :
  is_Some (speed_bindings !! key) ->
  Node.speed (process_key key s).1 = (Node.speed s * linear_factor key)%float
  /\ Node.turn (process_key key s).1 = (Node.turn s * angular_factor key)%float
  /\ Node.intent (process_key key s).1 = Node.intent s
  /\ Node.running (process_key key s).1 = Node.running s.
Proof.
  intros Hs. pose proof (speed_key_not_move_key key Hs) as Hm.
  destruct Hs as [[fl fa] Hs].
  unfold process_key, loop_body, linear_factor, angular_factor.
  rewrite Hm, Hs. cbn. destruct (Node.status s =? 14)%Z; cbn; auto.
Qed.

Lemma key_loop_speed_keys (keys : list string) (s : Node.t) :
  Node.running s = true ->
  Forall (fun k => is_Some (speed_bindings !! k)) keys ->
  Node.speed (key_loop (Key <$> keys) s).1
  = ordered_product (Node.speed s) (linear_factor <$> keys)
  /\ Node.turn (key_loop (Key <$> keys) s).1
     = ordered_product (Node.turn s) (angular_factor <$> keys).
Proof.
  intros Hrun Hall. revert s Hrun.
  induction Hall as [| k keys Hk _ IH]; intros s Hrun.
  - cbn. rewrite Hrun. split; reflexivity.
  - cbn [fmap list_fmap key_loop]. rewrite Hrun.
    destruct (process_speed_key k s Hk) as (Hsp & Htu & _ & Hr).
    destruct (process_key k s) as [s1 o1]. cbn [fst] in *.
    assert (Hrun1 : Node.running s1 = true) by congruence.
    specialize (IH s1 Hrun1).
    change (list_fmap _ _ Key keys) with (Key <$> keys).
    destruct (key_loop (Key <$> keys) s1) as [s2 o2]. cbn [fst] in *.
    unfold ordered_product in *. cbn [foldl].
    rewrite <- Hsp, <- Htu. exact IH.
Qed.

Lemma get_key_loop_fst (ins : list key_input) (s : Node.t) :
  (get_key_loop ins s).1 = (key_loop ins s).1.
Proof. unfold get_key_loop. now destruct (key_loop ins s). Qed.

(** C4.  From the state [__init__] leaves (speed 0.5, turn 1.0), after any
    finite sequence of speed keys the linear scale is 0.5 multiplied in
    order by the linear factors of the keys pressed, and the angular scale
    1.0 multiplied in order by their angular factors: the scales are the
    bare products, with no bound applied at any step. *)
Theorem speed_keys_multiply_in_order (p : Params) (s0 : Node.t)
    (keys : list string) :
  init p = inr s0 ->
  Forall (fun k => is_Some (speed_bindings !! k)) keys ->
  Node.speed (get_key_loop (Key <$> keys) s0).1
  = ordered_product 0.5 (linear_factor <$> keys)
  /\ Node.turn (get_key_loop (Key <$> keys) s0).1
     = ordered_product 1.0 (angular_factor <$> keys).
Proof.
  intros Hinit Hall. rewrite get_key_loop_fst.
  assert (Hs0 : s0 = new_node p).
  { unfold init in Hinit.
    destruct (negb (param_stamped p) && Py.truthy (param_frame_id p));
      [discriminate |].
    destruct (PrimFloat.eqb (param_repeat_rate p) 0); [discriminate |].
    congruence. }
  subst s0. apply (key_loop_speed_keys keys (new_node p)); [reflexivity | exact Hall].
Qed.

Lemma speed_keys_multiply_in_order_witness :
  Node.speed (get_key_loop (Key <$> ["q"; "x"; "e"]) (new_node default_params)).1
  = ordered_product 0.5 (linear_factor <$> ["q"; "x"; "e"])
  /\ Node.turn (get_key_loop (Key <$> ["q"; "x"; "e"]) (new_node default_params)).1
     = ordered_product 1.0 (angular_factor <$> ["q"; "x"; "e"]).
Proof.
  apply (speed_keys_multiply_in_order default_params (new_node default_params)
           ["q"; "x"; "e"]).
  - vm_compute. reflexivity.
  - repeat constructor; vm_compute; eauto.
Defined.

(** C5, as the code has it.  Three presses of [q] from the defaults give a
    linear scale of [0.5 * 1.1 * 1.1 * 1.1], about 0.6655, and an angular
    scale of [1.0 * 1.1 * 1.1 * 1.1], about 1.331: [q] is bound to the pair
    [(1.1, 1.1)] and scales both. *)
Theorem q_thrice_scales_both :
  init default_params = inr (new_node default_params)
  /\ speed_bindings !! "q" = Some (Py.Float 1.1, Py.Float 1.1)
  /\ scales_after ["q"; "q"; "q"]
     = ((0.5 * 1.1 * 1.1 * 1.1)%float, (1.0 * 1.1 * 1.1 * 1.1)%float)
  /\ close_to 1e-15 (scales_after ["q"; "q"; "q"]).1 0.6655 = true
  /\ close_to 1e-15 (scales_after ["q"; "q"; "q"]).2 1.331 = true.
Proof. repeat split; vm_compute; reflexivity. Qed.

(** C5, as stated, fails: after three presses of [q] the angular scale is
    not 1.0. *)
Lemma q_thrice_turn_not_unchanged :
  (scales_after ["q"; "q"; "q"]).2 <> 1.0%float.
Proof.
  intros H. apply (f_equal (fun f => PrimFloat.ltb 1.3 f)) in H.
  vm_compute in H. discriminate H.
Qed.

(** C10.  [w] and [x] multiply the linear scale by 1.1 and 0.9 and leave
    the angular scale exactly as it was, their angular factor being the
    integer 1; [e] and [c] multiply the angular scale and leave the linear
    scale exactly as it was; none of the four touches the intent. *)
Theorem single_scale_keys (s : Node.t) :
  let after key := (process_key key s).1 in
  (speed_bindings !! "w" = Some (Py.Float 1.1, Py.Int 1)
   /\ Node.speed (after "w") = (Node.speed s * 1.1)%float
   /\ Node.turn (after "w") = Node.turn s
   /\ Node.intent (after "w") = Node.intent s)
  /\ (speed_bindings !! "x" = Some (Py.Float 0.9, Py.Int 1)
      /\ Node.speed (after "x") = (Node.speed s * 0.9)%float
      /\ Node.turn (after "x") = Node.turn s
      /\ Node.intent (after "x") = Node.intent s)
  /\ (speed_bindings !! "e" = Some (Py.Int 1, Py.Float 1.1)
      /\ Node.speed (after "e") = Node.speed s
      /\ Node.turn (after "e") = (Node.turn s * 1.1)%float
      /\ Node.intent (after "e") = Node.intent s)
  /\ (speed_bindings !! "c" = Some (Py.Int 1, Py.Float 0.9)
      /\ Node.speed (after "c") = Node.speed s
      /\ Node.turn (after "c") = (Node.turn s * 0.9)%float
      /\ Node.intent (after "c") = Node.intent s).
Proof.
  assert (Hkey : forall key fl fa,
             speed_bindings !! key = Some (fl, fa) ->
             Node.speed (process_key key s).1 = Py.float_mul (Node.speed s) fl
             /\ Node.turn (process_key key s).1 = Py.float_mul (Node.turn s) fa
             /\ Node.intent (process_key key s).1 = Node.intent s).
  { intros key fl fa Hk.
    destruct (process_speed_key key s (ex_intro _ _ Hk)) as (Hsp & Htu & Hi & _).
    unfold linear_factor, angular_factor in *. rewrite Hk in *. auto. }
  assert (Hw : speed_bindings !! "w" = Some (Py.Float 1.1, Py.Int 1))
    by (vm_compute; reflexivity).
  assert (Hx : speed_bindings !! "x" = Some (Py.Float 0.9, Py.Int 1))
    by (vm_compute; reflexivity).
  assert (He : speed_bindings !! "e" = Some (Py.Int 1, Py.Float 1.1))
    by (vm_compute; reflexivity).
  assert (Hc : speed_bindings !! "c" = Some (Py.Int 1, Py.Float 0.9))
    by (vm_compute; reflexivity).
  intros after. subst after. cbv beta.
  destruct (Hkey _ _ _ Hw) as (Hw1 & Hw2 & Hw3).
  destruct (Hkey _ _ _ Hx) as (Hx1 & Hx2 & Hx3).
  destruct (Hkey _ _ _ He) as (He1 & He2 & He3).
  destruct (Hkey _ _ _ Hc) as (Hc1 & Hc2 & Hc3).
  rewrite float_mul_int_one in Hw2, Hx2, He1, Hc1.
  repeat split; assumption.
Qed.

(** ** C9: [stop] writes the message only *)

(** C9.  [stop] leaves the intent and both scales of the node as they were,
    so a tick after it publishes the same scaled velocity as a tick before
    it would have; after [i] from the defaults that is 0.5 forward, not
    zero. *)
Theorem stop_keeps_velocity_state :
  (forall (now now' : Time) (s : Node.t),
      Node.intent (stop now s).1 = Node.intent s
      /\ Node.scales (stop now s).1 = Node.scales s
      /\ twist_of (publish_twist now' (stop now s).1).2
         = twist_of (publish_twist now' s).2)
  /\ (forall now now' : Time,
         (fun s => twist_of (publish_twist now' (stop now s).1).2)
           <$> after_key "i" default_params
         = Some (Twist.mk (Vector3.mk 0.5 0 0) (Vector3.mk 0 0 0))).
Proof.
  split.
  - intros now now' s. rewrite !publish_twist_twist.
    repeat split; reflexivity.
  - intros now now'. vm_compute. reflexivity.
Qed.

(** ** C6: the final stop *)

Lemma published_msgs_app (l1 l2 : list event) :
  published_msgs (l1 ++ l2) = published_msgs l1 ++ published_msgs l2.
Proof. apply omap_app. Qed.

Lemma published_msgs_Published (ms : list Msg) :
  published_msgs (Published <$> ms) = ms.
Proof.
  induction ms as [| m ms IH]; [reflexivity |].
  cbn. unfold published_msgs in IH. now rewrite IH.
Qed.

Lemma init_inr (p : Params) (s0 : Node.t) :
  init p = inr s0 -> s0 = new_node p.
Proof.
  unfold init.
  destruct (negb (param_stamped p) && Py.truthy (param_frame_id p));
    [discriminate |].
  destruct (PrimFloat.eqb (param_repeat_rate p) 0); [discriminate |].
  congruence.
Qed.

(** What [main] publishes once the node exists: the messages of the ticks,
    then the message of [stop]. *)
Lemma main_published (p : Params) (s0 : Node.t) (keys : list key_input)
    (sched : list action) (spin_exit : option exn) (now : Time) :
  init p = inr s0 ->
  published_msgs (main p keys sched spin_exit now).1
  = published (run sched (start s0 keys))
    ++ published_msgs
         (stop now (Node.set_running false (node (run sched (start s0 keys))))).2.
Proof.
  intros Hinit. unfold main. rewrite Hinit.
  destruct (stop now _) as [s2 evs] eqn:Hstop. cbn [fst snd].
  rewrite !published_msgs_app, published_msgs_Published.
  destruct (alive _); cbn; now rewrite app_nil_r.
Qed.

(** C6.  Whatever intent and scales the node holds, [stop] publishes one
    message and its six velocity fields are zero.  Once the node exists,
    [main] runs [stop] however [rclpy.spin] ends (it returns, it is
    interrupted, or it raises anything else) and whatever the two threads
    did before: the last message published is the all-zero one. *)
Theorem stop_runs_on_every_exit (p : Params) (s0 : Node.t)
    (keys : list key_input) (sched : list action) (spin_exit : option exn)
    (now : Time) :
  init p = inr s0 ->
  (forall s : Node.t,
      exists m : Msg,
        published_msgs (stop now s).2 = [m] /\ twist_of m = Twist.default)
  /\ exists m : Msg,
       last (published_msgs (main p keys sched spin_exit now).1) = Some m
       /\ twist_of m = Twist.default.
Proof.
  intros Hinit. split.
  - intros s. destruct (stop_twist now s) as [Hp Hz]. eauto.
  - rewrite (main_published p s0 keys sched spin_exit now Hinit).
    destruct (stop_twist now
                (Node.set_running false (node (run sched (start s0 keys)))))
      as [Hp Hz].
    rewrite Hp, last_snoc. eauto.
Qed.

Lemma stop_runs_on_every_exit_witness :
  (forall s : Node.t,
      exists m : Msg,
        published_msgs (stop 7%Z s).2 = [m] /\ twist_of m = Twist.default)
  /\ exists m : Msg,
       last (published_msgs
               (main default_params [Key "i"; ReadError]
                  [KeyThread; KeyThread; Timer 1%Z; KeyThread; Timer 2%Z]
                  (Some OtherError) 7%Z).1) = Some m
       /\ twist_of m = Twist.default.
Proof.
  apply (stop_runs_on_every_exit default_params (new_node default_params)).
  vm_compute. reflexivity.
Defined.

(** ** C7: the frame of stamped messages *)

Lemma init_rejects_frame_id_unstamped (p : Params) :
  param_stamped p = false ->
  param_frame_id p <> EmptyString ->
  init p = inl (Exception "'frame_id' can only be set when 'stamped' is True")
  /\ forall keys sched spin_exit now,
       published_msgs (main p keys sched spin_exit now).1 = [].
Proof.
  intros Hs Hf.
  assert (Hi : init p
               = inl (Exception "'frame_id' can only be set when 'stamped' is True")).
  { unfold init. rewrite Hs. destruct (param_frame_id p); [congruence | reflexivity]. }
  split; [exact Hi |].
  intros keys sched spin_exit now. unfold main. now rewrite Hi.
Qed.

Lemma init_accepts_stamped (p : Params) :
  param_stamped p = true ->
  PrimFloat.eqb (param_repeat_rate p) 0 = false ->
  init p = inr (new_node p).
Proof. intros Hs Hr. unfold init. now rewrite Hs, Hr. Qed.

(** Every tick of a stamped node writes the configured frame. *)
Lemma tick_carries_frame_id (now : Time) (s : Node.t) :
  Node.stamped s = true ->
  Header.frame_id <$> header_of (publish_twist now s).2 = Some (Node.frame_id s).
Proof.
  intros Hs. unfold publish_twist. cbn [snd]. rewrite header_of_update.
  destruct (header_of_stamped (Node.twist_msg s) Hs) as [h ->]. reflexivity.
Qed.

(** [stop] keeps whatever frame the message object already holds. *)
Lemma stop_keeps_frame_id (now : Time) (s : Node.t) :
  Header.frame_id <$> header_of (to_msg (Node.twist_msg (stop now s).1))
  = Header.frame_id <$> header_of (to_msg (Node.twist_msg s)).
Proof.
  unfold stop. cbn [fst Node.twist_msg Node.set_twist_msg].
  rewrite header_of_update. now destruct (header_of _).
Qed.

(** C7, where the code departs from it.  With [stamped] true and [frame_id]
    ["base_link"] the node is built; if [rclpy.spin] is interrupted before
    the first tick, the one message [main] publishes, that of [stop], has
    an empty [frame_id] in its header, not ["base_link"]. *)
Theorem stop_before_first_tick_has_no_frame (now : Time) :
  let p := mkParams true "base_link" 10 in
  init p = inr (new_node p)
  /\ main p [] [] (Some KeyboardInterrupt) now
     = ([Published
           (MsgTwistStamped
              (TwistStamped.mk (Header.mk now EmptyString) Twist.default));
         TerminalRestored; NodeDestroyed; RclpyShutdown; KeyThreadJoined],
        None)
  /\ Node.frame_id (new_node p) = "base_link".
Proof. repeat split. Qed.

(** ** C8: the two threads and the intent *)

Lemma exec_intent (st : stmt) (s : Node.t) :
  Node.intent (exec st s).1 = stmt_intent (Node.intent s) st.
Proof. destruct st; reflexivity. Qed.

Lemma exec_all_intent (sts : list stmt) (s : Node.t) :
  Node.intent (exec_all sts s).1 = pending_intent sts (Node.intent s).
Proof.
  revert s. induction sts as [| st rest IH]; intros s; [reflexivity |].
  pose proof (exec_intent st s) as Hst. specialize (IH (exec st s).1).
  destruct st; cbn [exec_all pending_intent]; try reflexivity;
    destruct (exec _ s) as [s1 o1]; cbn [fst] in *;
    destruct (exec_all rest s1) as [s2 o2]; cbn [fst] in *;
    now rewrite IH, Hst.
Qed.

(** Whatever a keystroke does, it takes a whole intent to a whole intent
    once all its statements have run. *)
Lemma loop_body_whole (key : string) (i : Py.num * Py.num * Py.num * Py.num) :
  whole_intent i -> whole_intent (pending_intent (loop_body key) i).
Proof.
  intros Hi. destruct i as [[[ix iy] iz] ith]. unfold loop_body.
  destruct (move_bindings !! key) as [[[[bx by_] bz] bth] |] eqn:Hm.
  - right. exists key, bx, by_, bz, bth. split; [exact Hm | reflexivity].
  - destruct (speed_bindings !! key) as [[fl fa] |].
    + exact Hi.
    + left. now destruct (String.eqb key CTRL_C).
Qed.

Lemma key_thread_step_invariant (w : world) :
  intent_invariant w -> intent_invariant (key_thread_step w).
Proof.
  destruct w as [s pend ins al pr pub].
  unfold intent_invariant, key_thread_step.
  cbn [alive pending node inputs printed published]. intros Hw.
  destruct al; [| exact Hw].
  destruct pend as [| st rest].
  - cbn [pending_intent] in Hw.
    destruct (Node.running s); [| exact Hw].
    destruct ins as [| [k |] keys]; cbn [pending node pending_intent].
    + exact Hw.
    + now apply loop_body_whole.
    + exact Hw.
  - pose proof (exec_intent st s) as Hst.
    destruct (exec st s) as [s1 out]. cbn [fst] in Hst.
    destruct st; cbn [pending node pending_intent] in *;
      rewrite Hst; exact Hw.
Qed.

Lemma timer_step_invariant (now : Time) (w : world) :
  intent_invariant w -> intent_invariant (timer_step now w).
Proof. intros Hw. exact Hw. Qed.

Lemma start_invariant (p : Params) (keys : list key_input) :
  intent_invariant (start (new_node p) keys).
Proof. left. reflexivity. Qed.

Lemma tick_views_whole (sched : list action) (w : world) :
  intent_invariant w ->
  Forall (fun v => v.1 = false -> whole_intent v.2) (tick_views sched w).
Proof.
  revert w. induction sched as [| [| now] rest IH]; intros w Hw;
    cbn [tick_views].
  - constructor.
  - apply IH. now apply key_thread_step_invariant.
  - constructor.
    + cbn [fst snd]. unfold mid_keystroke. unfold intent_invariant in Hw.
      destruct (pending w); [intros _; exact Hw | discriminate].
    + apply IH. now apply timer_step_invariant.
Qed.

(** No key is bound to the tuple (0, 1, 0, 1). *)
Lemma torn_intent_not_whole :
  ~ whole_intent (Py.Int 0, Py.Int 1, Py.Int 0, Py.Int 1).
Proof.
  intros [Hz | (key & bx & by_ & bz & bth & Hm & Heq)]; [discriminate Hz |].
  injection Heq as <- <- <- <-.
  assert (Hin : (0, 1, 0, 1)%Z ∈ bound_tuples)
    by (eapply elem_of_map_img_2; exact Hm).
  revert Hin. apply (bool_decide_unpack _). vm_compute. exact I.
Qed.

(** A tick between two keystrokes: after [u] has been read and its four
    assignments run, the tick reads the tuple bound to [u]. *)
Example tick_after_whole_keystroke :
  tick_views (replicate 5 KeyThread ++ [Timer 0%Z])
    (start (new_node default_params) [Key "u"])
  = [(false, (Py.Int 1, Py.Int 0, Py.Int 0, Py.Int 1))].
Proof. vm_compute. reflexivity. Qed.

(** C8, as the code has it.  The node has no lock: the keyboard thread
    writes the four components of the intent by four separate assignments
    and the timer callback reads them as they are.  A tick that finds the
    keyboard thread between two keystrokes reads a whole intent (the zero
    tuple or a bound tuple).  A tick that runs between the assignments of
    one keystroke can read a mixture: between the assignments of [J],
    pressed after [u], it reads (0, 1, 0, 1), bound to no key, and
    publishes linear y = 0.5 with angular z = 1.0. *)
Theorem tick_reads_whole_intent_between_keystrokes :
  (forall (p : Params) (keys : list key_input) (sched : list action),
      Forall (fun v => v.1 = false -> whole_intent v.2)
        (tick_views sched (start (new_node p) keys)))
  /\ tick_views torn_schedule (start (new_node default_params) torn_keys)
     = [(true, (Py.Int 0, Py.Int 1, Py.Int 0, Py.Int 1))]
  /\ ~ whole_intent (Py.Int 0, Py.Int 1, Py.Int 0, Py.Int 1)
  /\ published (run torn_schedule (start (new_node default_params) torn_keys))
     = [MsgTwist (Twist.mk (Vector3.mk 0 0.5 0) (Vector3.mk 0 0 1))].
Proof.
  split; [| split; [| split]].
  - intros p keys sched. apply tick_views_whole, start_invariant.
  - vm_compute. reflexivity.
  - exact torn_intent_not_whole.
  - vm_compute. reflexivity.
Qed.

(** C8, as stated, fails: not every tick reads a whole intent. *)
Lemma tick_can_read_torn_intent :
  ~ (forall (keys : list key_input) (sched : list action),
        Forall (fun v => whole_intent v.2)
          (tick_views sched (start (new_node default_params) keys))).
Proof.
  intros H. specialize (H torn_keys torn_schedule).
  assert (Hv : tick_views torn_schedule (start (new_node default_params) torn_keys)
               = [(true, (Py.Int 0, Py.Int 1, Py.Int 0, Py.Int 1))])
    by (vm_compute; reflexivity).
  rewrite Hv in H. apply Forall_inv in H. exact (torn_intent_not_whole H).
Qed.

(** ** The keyboard thread, step by step, against [process_key] *)

Lemma dead_thread_stays (n : nat) (w : world) :
  alive w = false -> run (replicate n KeyThread) w = w.
Proof.
  intros Hd. induction n as [| n IH]; [reflexivity |].
  cbn [replicate]. unfold run in *. cbn [foldl step].
  unfold key_thread_step. rewrite Hd. exact IH.
Qed.

Lemma key_thread_runs_pending (sts : list stmt) (s : Node.t)
    (ins : list key_input) (pr : list console) (pub : list Msg) :
  node (run (replicate (length sts) KeyThread) (mkWorld s sts ins true pr pub))
  = (exec_all sts s).1.
Proof.
  revert s pr. induction sts as [| st rest IH]; intros s pr; [reflexivity |].
  cbn [length replicate]. unfold run in *. cbn [foldl step].
  unfold key_thread_step. cbn [alive pending node inputs printed published].
  destruct st; cbn [exec exec_all];
    try (rewrite IH; now destruct (exec_all rest _)).
  fold (run (replicate (length rest) KeyThread)
          (mkWorld (Node.set_running false s) [] ins false (pr ++ []) pub)).
  now rewrite dead_thread_stays.
Qed.

(** Reading a key and then running its statements one step at a time, with
    no tick in between, is [process_key]. *)
Lemma key_thread_steps_process_key (key : string) (s : Node.t)
    (keys : list key_input) :
  Node.running s = true ->
  node (run (replicate (S (length (loop_body key))) KeyThread)
          (mkWorld s [] (Key key :: keys) true [] []))
  = (process_key key s).1.
Proof.
  intros Hr. cbn [replicate]. unfold run. cbn [foldl step].
  unfold key_thread_step.
  cbn [alive pending node inputs printed published]. rewrite Hr.
  apply key_thread_runs_pending.
Qed.

(** * Further properties *)

(** ** The keyboard loop over whole key sequences *)

Lemma key_intent_None (key : string) :
  key_intent key = None <-> is_Some (speed_bindings !! key).
Proof.
  unfold key_intent. split.
  - destruct (move_bindings !! key) as [[[[bx by_] bz] bth] |]; [discriminate |].
    destruct (speed_bindings !! key); [eauto | discriminate].
  - intros Hs. rewrite (speed_key_not_move_key key Hs).
    destruct Hs as [f ->]. reflexivity.
Qed.

(** One iteration, for a key other than CTRL-C, in closed form. *)
Lemma process_key_cases (key : string) (s : Node.t) :
  key <> CTRL_C ->
  process_key key s
  = match key_intent key with
    | Some (ix, iy, iz, ith) =>
        (Node.set_th ith (Node.set_z iz (Node.set_y iy (Node.set_x ix s))), [])
    | None =>
        (Node.set_status ((Node.status s + 1) mod 15)%Z
           (Node.set_turn (Node.turn s * angular_factor key)%float
              (Node.set_speed (Node.speed s * linear_factor key)%float s)),
         vels (Node.speed s * linear_factor key)%float
              (Node.turn s * angular_factor key)%float
           :: (if (Node.status s =? 14)%Z then [HELP_MSG] else []))
    end.
Proof.
  intros Hk. apply String.eqb_neq in Hk.
  unfold process_key, loop_body, key_intent, linear_factor, angular_factor.
  destruct (move_bindings !! key) as [[[[bx by_] bz] bth] |]; [reflexivity |].
  destruct (speed_bindings !! key) as [[fl fa] |].
  - cbn. now destruct (Node.status s =? 14)%Z.
  - rewrite Hk. reflexivity.
Qed.

Lemma key_loop_app_eq (l1 l2 : list key_input) (s : Node.t) :
  key_loop (l1 ++ l2) s
  = ((key_loop l2 (key_loop l1 s).1).1,
     (key_loop l1 s).2 ++ (key_loop l2 (key_loop l1 s).1).2).
Proof.
  revert s. induction l1 as [| [k |] l1 IH]; intros s.
  - cbn [app]. destruct (Node.running s) eqn:Hr.
    + cbn [key_loop]. rewrite Hr. cbn. now destruct (key_loop l2 s).
    + destruct l2; cbn [key_loop]; rewrite Hr; cbn; rewrite Hr; reflexivity.
  - cbn [app key_loop]. destruct (Node.running s) eqn:Hr.
    + destruct (process_key k s) as [s1 o1]. rewrite (IH s1).
      destruct (key_loop l1 s1) as [s2 o2]. cbn [fst snd].
      now rewrite app_assoc.
    + cbn [fst snd]. destruct l2 as [| [k2 |] l2]; cbn [key_loop];
        rewrite Hr; reflexivity.
  - cbn [app key_loop]. destruct (Node.running s) eqn:Hr; cbn [fst snd].
    + destruct l2 as [| [k2 |] l2]; reflexivity.
    + destruct l2 as [| [k2 |] l2]; cbn [key_loop]; rewrite Hr; reflexivity.
Qed.

Lemma key_loop_not_running (ins : list key_input) (s : Node.t) :
  Node.running s = false -> key_loop ins s = (s, []).
Proof. intros Hr. destruct ins as [| [k |] ins]; cbn; now rewrite Hr. Qed.

(** X1.  The loop composes: running it over [l1 ++ l2] is running it over
    [l1] and then over [l2] from the state reached, the console output
    being the two outputs in order.  This holds also when the loop stops
    inside [l1]. *)
Theorem key_loop_composes (l1 l2 : list key_input) (s : Node.t) :
  (key_loop (l1 ++ l2) s).1 = (key_loop l2 (key_loop l1 s).1).1
  /\ (key_loop (l1 ++ l2) s).2
     = (key_loop l1 s).2 ++ (key_loop l2 (key_loop l1 s).1).2.
Proof. rewrite key_loop_app_eq. split; reflexivity. Qed.

Lemma key_loop_stopper (ins : list key_input) (stopper : key_input)
    (s : Node.t) :
  stopper = Key CTRL_C \/ stopper = ReadError ->
  Node.running (key_loop (ins ++ [stopper]) s).1 = false.
Proof.
  intros Hst. rewrite key_loop_app_eq. cbn [fst].
  generalize (key_loop ins s).1. intros s1.
  destruct (Node.running s1) eqn:Hr.
  - destruct Hst as [-> | ->]; cbn [key_loop]; rewrite Hr; reflexivity.
  - now rewrite key_loop_not_running.
Qed.

(** X2.  CTRL-C and a failing read both end the loop for good: after either
    [running] is false, and whatever the terminal delivers afterwards is
    never looked at. *)
Theorem loop_ends_for_good (ins rest : list key_input) (stopper : key_input)
    (s : Node.t) :
  stopper = Key CTRL_C \/ stopper = ReadError ->
  Node.running (key_loop (ins ++ [stopper]) s).1 = false
  /\ key_loop (ins ++ stopper :: rest) s = key_loop (ins ++ [stopper]) s.
Proof.
  intros Hst. pose proof (key_loop_stopper ins stopper s Hst) as Hr.
  split; [exact Hr |].
  change (stopper :: rest) with ([stopper] ++ rest).
  rewrite app_assoc, key_loop_app_eq.
  rewrite (key_loop_not_running rest _ Hr). cbn [fst snd].
  rewrite app_nil_r. now destruct (key_loop (ins ++ [stopper]) s).
Qed.

Lemma loop_ends_for_good_witness :
  Node.running
    (key_loop ([Key "i"] ++ [Key CTRL_C]) (new_node default_params)).1 = false
  /\ key_loop ([Key "i"] ++ Key CTRL_C :: [Key "u"; Key "q"])
       (new_node default_params)
     = key_loop ([Key "i"] ++ [Key CTRL_C]) (new_node default_params).
Proof.
  apply (loop_ends_for_good [Key "i"] [Key "u"; Key "q"] (Key CTRL_C)
           (new_node default_params)).
  left. reflexivity.
Defined.

(** X3.  The two ways the loop ends differ in what they leave behind.
    CTRL-C goes through the stop branch first: the intent is zero.  A
    failing read only clears [running]: intent and scales stay, so the
    timer goes on publishing the velocity of the last key. *)
Theorem loop_end_and_the_intent (rest : list key_input) (s : Node.t) :
  Node.running s = true ->
  (Node.intent (key_loop (Key CTRL_C :: rest) s).1 = zero_intent
   /\ Node.scales (key_loop (Key CTRL_C :: rest) s).1 = Node.scales s)
  /\ (Node.intent (key_loop (ReadError :: rest) s).1 = Node.intent s
      /\ Node.scales (key_loop (ReadError :: rest) s).1 = Node.scales s
      /\ (key_loop (ReadError :: rest) s).2 = [keyboard_thread_exception]
      /\ forall now : Time,
           twist_of (publish_twist now (key_loop (ReadError :: rest) s).1).2
           = twist_of (publish_twist now s).2).
Proof.
  intros Hr. split.
  - cbn [key_loop]. rewrite Hr.
    assert (Hp : process_key CTRL_C s
                 = (Node.set_running false
                      (Node.set_th (Py.Float 0)
                         (Node.set_z (Py.Float 0)
                            (Node.set_y (Py.Float 0)
                               (Node.set_x (Py.Float 0) s)))), []))
      by reflexivity.
    rewrite Hp. rewrite key_loop_not_running by reflexivity.
    split; reflexivity.
  - cbn [key_loop]. rewrite Hr. cbn [fst snd].
    repeat split.
Qed.

Lemma loop_end_and_the_intent_witness :
  let s := (key_loop [Key "u"; Key "q"] (new_node default_params)).1 in
  (Node.intent (key_loop (Key CTRL_C :: [Key "i"]) s).1 = zero_intent
   /\ Node.scales (key_loop (Key CTRL_C :: [Key "i"]) s).1 = Node.scales s)
  /\ (Node.intent (key_loop (ReadError :: [Key "i"]) s).1 = Node.intent s
      /\ Node.scales (key_loop (ReadError :: [Key "i"]) s).1 = Node.scales s
      /\ (key_loop (ReadError :: [Key "i"]) s).2 = [keyboard_thread_exception]
      /\ forall now : Time,
           twist_of (publish_twist now (key_loop (ReadError :: [Key "i"]) s).1).2
           = twist_of (publish_twist now s).2).
Proof.
  intros s. apply (loop_end_and_the_intent [Key "i"] s).
  vm_compute. reflexivity.
Defined.

(** What any key but CTRL-C does to the state the loop works on. *)
Lemma process_key_effect (key : string) (s : Node.t) :
  key <> CTRL_C ->
  Node.running (process_key key s).1 = Node.running s
  /\ Node.intent (process_key key s).1
     = default (Node.intent s) (key_intent key)
  /\ (match key_intent key with
      | Some _ =>
          Node.scales (process_key key s).1 = Node.scales s
          /\ Node.status (process_key key s).1 = Node.status s
          /\ (process_key key s).2 = []
      | None =>
          Node.scales (process_key key s).1
          = ((Node.speed s * linear_factor key)%float,
             (Node.turn s * angular_factor key)%float)
          /\ Node.status (process_key key s).1 = ((Node.status s + 1) mod 15)%Z
          /\ (process_key key s).2
             = vels (Node.speed s * linear_factor key)%float
                    (Node.turn s * angular_factor key)%float
                 :: (if (Node.status s =? 14)%Z then [HELP_MSG] else [])
      end).
Proof.
  intros Hk. rewrite (process_key_cases key s Hk).
  destruct (key_intent key) as [[[[ix iy] iz] ith] |]; repeat split.
Qed.

Lemma key_loop_cons_key (k : string) (keys : list string) (s : Node.t) :
  Node.running s = true ->
  k <> CTRL_C ->
  key_loop (Key <$> k :: keys) s
  = ((key_loop (Key <$> keys) (process_key k s).1).1,
     (process_key k s).2 ++ (key_loop (Key <$> keys) (process_key k s).1).2)
  /\ Node.running (process_key k s).1 = true.
Proof.
  intros Hr Hk. cbn [fmap list_fmap key_loop]. rewrite Hr.
  change (list_fmap _ _ Key keys) with (Key <$> keys).
  destruct (process_key_effect k s Hk) as (Hrun & _).
  destruct (process_key k s) as [s1 o1]. cbn [fst snd] in *.
  destruct (key_loop (Key <$> keys) s1). split; [reflexivity | congruence].
Qed.

(** X4.  Over any sequence of keys without CTRL-C the scales are the
    ordered products of the factors of the speed keys in it: movement keys
    and stop keys in between change neither scale. *)
Theorem scales_follow_speed_keys_only (keys : list string) (s : Node.t) :
  Node.running s = true ->
  Forall (fun k => k <> CTRL_C) keys ->
  Node.speed (key_loop (Key <$> keys) s).1
  = ordered_product (Node.speed s) (linear_factor <$> speed_keys keys)
  /\ Node.turn (key_loop (Key <$> keys) s).1
     = ordered_product (Node.turn s) (angular_factor <$> speed_keys keys).
Proof.
  intros Hr Hall. revert s Hr.
  induction Hall as [| k keys Hk _ IH]; intros s Hr.
  - cbn. rewrite Hr. split; reflexivity.
  - destruct (key_loop_cons_key k keys s Hr Hk) as [-> Hr1]. cbn [fst].
    destruct (IH _ Hr1) as [-> ->].
    destruct (process_key_effect k s Hk) as (_ & _ & Heff).
    unfold speed_keys. rewrite filter_cons.
    destruct (key_intent k) as [i |] eqn:Hki.
    + destruct Heff as (Hsc & _).
      pose proof (f_equal fst Hsc) as Hsp1. pose proof (f_equal snd Hsc) as Htu1.
      cbn [fst snd Node.scales] in Hsp1, Htu1. rewrite Hsp1, Htu1.
      destruct (decide (is_Some (speed_bindings !! k))) as [Hs | Hs];
        [| split; reflexivity].
      apply key_intent_None in Hs. congruence.
    + destruct Heff as (Hsc & _).
      pose proof (f_equal fst Hsc) as Hsp1. pose proof (f_equal snd Hsc) as Htu1.
      cbn [fst snd Node.scales] in Hsp1, Htu1. rewrite Hsp1, Htu1.
      destruct (decide (is_Some (speed_bindings !! k))) as [Hs | Hs];
        [split; reflexivity |].
      apply key_intent_None in Hki. contradiction.
Qed.

Lemma scales_follow_speed_keys_only_witness :
  Node.speed
    (key_loop (Key <$> ["q"; "i"; " "; "x"; "u"]) (new_node default_params)).1
  = ordered_product (Node.speed (new_node default_params))
      (linear_factor <$> speed_keys ["q"; "i"; " "; "x"; "u"])
  /\ Node.turn
       (key_loop (Key <$> ["q"; "i"; " "; "x"; "u"]) (new_node default_params)).1
     = ordered_product (Node.turn (new_node default_params))
         (angular_factor <$> speed_keys ["q"; "i"; " "; "x"; "u"]).
Proof.
  apply (scales_follow_speed_keys_only ["q"; "i"; " "; "x"; "u"]
           (new_node default_params)).
  - reflexivity.
  - repeat constructor; discriminate.
Defined.

(** X5.  Over any sequence of keys without CTRL-C the intent is the one
    assigned by the last key that is not a speed key (its bound tuple, or
    zero for a key bound nowhere), and the intent before the sequence if
    there is no such key: nothing of earlier keys survives. *)
Theorem intent_is_last_assigned (keys : list string) (s : Node.t) :
  Node.running s = true ->
  Forall (fun k => k <> CTRL_C) keys ->
  Node.intent (key_loop (Key <$> keys) s).1
  = default (Node.intent s) (last (omap key_intent keys)).
Proof.
  intros Hr Hall. revert s Hr.
  induction Hall as [| k keys Hk _ IH]; intros s Hr.
  - cbn. rewrite Hr. reflexivity.
  - destruct (key_loop_cons_key k keys s Hr Hk) as [-> Hr1]. cbn [fst].
    rewrite (IH _ Hr1).
    destruct (process_key_effect k s Hk) as (_ & -> & _).
    cbn [omap list_omap].
    destruct (key_intent k) as [i |]; [| reflexivity].
    rewrite last_cons. now destruct (last (omap key_intent keys)).
Qed.

Lemma intent_is_last_assigned_witness :
  Node.intent
    (key_loop (Key <$> ["u"; "q"; "J"; "w"]) (new_node default_params)).1
  = default (Node.intent (new_node default_params))
      (last (omap key_intent ["u"; "q"; "J"; "w"])).
Proof.
  apply (intent_is_last_assigned ["u"; "q"; "J"; "w"] (new_node default_params)).
  - reflexivity.
  - repeat constructor; discriminate.
Defined.

Lemma help_lines_app (o1 o2 : list console) :
  help_lines (o1 ++ o2) = help_lines o1 + help_lines o2.
Proof. unfold help_lines. now rewrite omap_app, length_app. Qed.

Lemma vels_lines_app (o1 o2 : list console) :
  vels_lines (o1 ++ o2) = vels_lines o1 + vels_lines o2.
Proof. unfold vels_lines. now rewrite omap_app, length_app. Qed.

(** X6.  The status counter counts the speed keys modulo 15 and stays in
    0..14; every speed key prints one status line, and the help text is
    printed again exactly when the counter wraps, that is once for every
    15 speed keys.  Other keys print nothing and leave the counter. *)
Theorem help_text_every_fifteenth (keys : list string) (s : Node.t) :
  Node.running s = true ->
  (0 <= Node.status s < 15)%Z ->
  Forall (fun k => k <> CTRL_C) keys ->
  let n := Z.of_nat (length (speed_keys keys)) in
  Node.status (key_loop (Key <$> keys) s).1 = ((Node.status s + n) mod 15)%Z
  /\ Z.of_nat (help_lines (key_loop (Key <$> keys) s).2)
     = ((Node.status s + n) / 15)%Z
  /\ Z.of_nat (vels_lines (key_loop (Key <$> keys) s).2) = n.
Proof.
  intros Hr Hst Hall. revert s Hr Hst.
  induction Hall as [| k keys Hk _ IH]; intros s Hr Hst n; subst n.
  - cbn. rewrite Hr. cbn.
    rewrite Z.add_0_r, Z.mod_small, Z.div_small by lia. auto.
  - destruct (key_loop_cons_key k keys s Hr Hk) as [-> Hr1]. cbn [fst snd].
    rewrite help_lines_app, vels_lines_app.
    destruct (process_key_effect k s Hk) as (_ & _ & Heff).
    unfold speed_keys in *. rewrite filter_cons.
    destruct (key_intent k) as [i |] eqn:Hki.
    + destruct Heff as (_ & Hst1 & ->).
      destruct (decide (is_Some (speed_bindings !! k))) as [Hs | Hs].
      { apply key_intent_None in Hs. congruence. }
      assert (Hst' : (0 <= Node.status (process_key k s).1 < 15)%Z)
        by (rewrite Hst1; exact Hst).
      destruct (IH _ Hr1 Hst') as (IH1 & IH2 & IH3).
      rewrite !Nat2Z.inj_add, IH1, IH2, IH3, Hst1.
      change (help_lines []) with 0%nat. change (vels_lines []) with 0%nat.
      repeat split; lia.
    + destruct Heff as (_ & Hst1 & ->).
      destruct (decide (is_Some (speed_bindings !! k))) as [Hs | Hs].
      2: { apply key_intent_None in Hki. contradiction. }
      assert (Hst' : (0 <= Node.status (process_key k s).1 < 15)%Z)
        by (rewrite Hst1; apply Z.mod_pos_bound; lia).
      destruct (IH _ Hr1 Hst') as (IH1 & IH2 & IH3).
      rewrite IH1, Hst1. cbn [length].
      rewrite Nat2Z.inj_succ, !Nat2Z.inj_add, IH2, IH3, Hst1.
      set (m := Z.of_nat (length (filter _ keys))) in *.
      assert (Hm : (0 <= m)%Z) by (subst m; lia).
      destruct (Z.eqb_spec (Node.status s) 14) as [He | He].
      * rewrite He. change ((14 + 1) mod 15)%Z with 0%Z.
        unfold help_lines, vels_lines. cbn [omap list_omap length].
        replace (14 + Z.succ m)%Z with (m + 1 * 15)%Z by lia.
        rewrite Z.mod_add, Z.div_add, !Z.add_0_l by lia.
        repeat split; lia.
      * rewrite (Z.mod_small (Node.status s + 1) 15) by lia.
        unfold help_lines, vels_lines. cbn [omap list_omap length].
        replace (Node.status s + Z.succ m)%Z with (Node.status s + 1 + m)%Z by lia.
        repeat split; lia.
Qed.

Lemma help_text_every_fifteenth_witness :
  let keys := replicate 31 "q" ++ ["i"; "x"] in
  let s := new_node default_params in
  let n := Z.of_nat (length (speed_keys keys)) in
  Node.status (key_loop (Key <$> keys) s).1 = ((Node.status s + n) mod 15)%Z
  /\ Z.of_nat (help_lines (key_loop (Key <$> keys) s).2)
     = ((Node.status s + n) / 15)%Z
  /\ Z.of_nat (vels_lines (key_loop (Key <$> keys) s).2) = n.
Proof.
  intros keys s.
  apply (help_text_every_fifteenth keys s).
  - reflexivity.
  - subst s. cbn. lia.
  - subst keys. apply Forall_app. split.
    + apply Forall_replicate. discriminate.
    + repeat constructor; discriminate.
Defined.

(** ** The timer and the keyboard thread do not disturb each other *)

Lemma run_app (l1 l2 : list action) (w : world) :
  run (l1 ++ l2) w = run l2 (run l1 w).
Proof. apply foldl_app. Qed.

Lemma timer_step_published (now : Time) (w : world) :
  published (timer_step now w)
  = published w ++ [(publish_twist now (node w)).2].
Proof. reflexivity. Qed.

Lemma key_thread_step_published (w : world) :
  published (key_thread_step w) = published w.
Proof.
  destruct w as [s pend ins al pr pub]. unfold key_thread_step.
  cbn [alive pending node inputs printed published].
  destruct al; [| reflexivity].
  destruct pend as [| st rest].
  - destruct (Node.running s); [| reflexivity].
    destruct ins as [| [k |] ins]; reflexivity.
  - destruct (exec st s) as [s1 out]. destruct st; reflexivity.
Qed.

(** X7.  Every tick publishes exactly one message and nothing else does:
    over any schedule the number of messages grows by the number of ticks,
    whether or not the keyboard thread is alive and [running] is set; and
    [main] publishes one message more, that of [stop]. *)
Theorem one_message_per_tick :
  (forall (sched : list action) (w : world),
      length (published (run sched w))
      = length (published w) + length (tick_times sched))
  /\ (forall (p : Params) (keys : list key_input) (sched : list action)
        (spin_exit : option exn) (now : Time),
         match init p with
         | inr _ =>
             length (published_msgs (main p keys sched spin_exit now).1)
             = S (length (tick_times sched))
         | inl _ =>
             published_msgs (main p keys sched spin_exit now).1 = []
         end).
Proof.
  assert (Hrun : forall (sched : list action) (w : world),
             length (published (run sched w))
             = length (published w) + length (tick_times sched)).
  { induction sched as [| [| now] sched IH]; intros w.
    - cbn. lia.
    - change (run (KeyThread :: sched) w) with (run sched (key_thread_step w)).
      rewrite IH, key_thread_step_published. reflexivity.
    - change (run (Timer now :: sched) w) with (run sched (timer_step now w)).
      rewrite IH, timer_step_published, length_app.
      unfold tick_times. cbn [omap list_omap length]. lia. }
  split; [exact Hrun |].
  intros p keys sched spin_exit now.
  destruct (init p) as [e | s0] eqn:Hinit.
  - unfold main. now rewrite Hinit.
  - rewrite (main_published p s0 keys sched spin_exit now Hinit).
    destruct (stop_twist now
                (Node.set_running false (node (run sched (start s0 keys)))))
      as [-> _].
    rewrite length_app, Hrun. cbn [start published length]. lia.
Qed.

Lemma exec_velocity_state (st : stmt) (s s' : Node.t) :
  velocity_state s = velocity_state s' ->
  velocity_state (exec st s).1 = velocity_state (exec st s').1
  /\ (exec st s).2 = (exec st s').2.
Proof.
  destruct s as [b f r sp tu x y z th m st0 ru],
           s' as [b' f' r' sp' tu' x' y' z' th' m' st0' ru'].
  unfold velocity_state, Node.intent, Node.scales. cbn.
  intros [= -> -> -> -> -> -> -> ->].
  destruct st; split; reflexivity.
Qed.

Lemma key_thread_step_key_view (w w' : world) :
  key_view w = key_view w' ->
  key_view (key_thread_step w) = key_view (key_thread_step w').
Proof.
  destruct w as [s pend ins al pr pub], w' as [s' pend' ins' al' pr' pub'].
  unfold key_view. cbn [node pending inputs alive printed]. intros H.
  pose proof (f_equal (fun t => t.1.1.1.1) H) as Hv.
  pose proof (f_equal (fun t => t.1.1.1.2) H) as Hpend.
  pose proof (f_equal (fun t => t.1.1.2) H) as Hins.
  pose proof (f_equal (fun t => t.1.2) H) as Hal.
  pose proof (f_equal (fun t => t.2) H) as Hpr.
  cbn [fst snd] in Hv, Hpend, Hins, Hal, Hpr. subst pend' ins' al' pr'.
  clear H.
  unfold key_thread_step. cbn [node pending inputs alive printed published].
  destruct al; [| cbn; now rewrite Hv].
  destruct pend as [| st rest].
  - assert (Hr : Node.running s = Node.running s')
      by (unfold velocity_state in Hv; congruence).
    rewrite <- Hr. destruct (Node.running s).
    + destruct ins as [| [k |] ins]; cbn; rewrite ?Hv; try reflexivity.
      assert (Hv' : velocity_state (Node.set_running false s)
                    = velocity_state (Node.set_running false s'))
        by (revert Hv; unfold velocity_state, Node.intent, Node.scales; cbn;
            congruence).
      now rewrite Hv'.
    + cbn. now rewrite Hv.
  - destruct (exec_velocity_state st s s' Hv) as [Hv1 Ho].
    destruct (exec st s) as [s1 o1], (exec st s') as [s1' o1'].
    cbn [fst snd] in *. subst o1'.
    destruct st; cbn; now rewrite Hv1.
Qed.

Lemma timer_step_key_view (now : Time) (w : world) :
  key_view (timer_step now w) = key_view w.
Proof. reflexivity. Qed.

Lemma run_key_view (sched : list action) (w w' : world) :
  key_view w = key_view w' ->
  key_view (run sched w)
  = key_view (run (replicate (key_thread_steps sched) KeyThread) w').
Proof.
  revert w w'. induction sched as [| [| now] sched IH]; intros w w' Hv.
  - exact Hv.
  - change (run (KeyThread :: sched) w) with (run sched (key_thread_step w)).
    change (run (replicate (key_thread_steps (KeyThread :: sched)) KeyThread) w')
      with (run (replicate (key_thread_steps sched) KeyThread)
              (key_thread_step w')).
    apply IH. now apply key_thread_step_key_view.
  - change (run (Timer now :: sched) w) with (run sched (timer_step now w)).
    change (key_thread_steps (Timer now :: sched)) with (key_thread_steps sched).
    apply IH. now rewrite timer_step_key_view.
Qed.

(** X8.  Ticks do not disturb the keyboard thread: the intent, the scales,
    the status counter, [running], what is pending, the keystrokes left
    and the console output after a schedule are those after the same
    number of keyboard steps with no tick at all. *)
Theorem ticks_do_not_disturb_key_thread (sched : list action) (w : world) :
  key_view (run sched w)
  = key_view (run (replicate (key_thread_steps sched) KeyThread) w).
Proof. now apply run_key_view. Qed.

(** ** The keyboard thread under any schedule, against the loop run alone *)

Lemma run_replicate_add (a b : nat) (w : world) :
  run (replicate (a + b) KeyThread) w
  = run (replicate b KeyThread) (run (replicate a KeyThread) w).
Proof. now rewrite replicate_add, run_app. Qed.

Lemma key_thread_runs_body (sts : list stmt) (s : Node.t)
    (ins : list key_input) (pr : list console) (pub : list Msg) :
  exists al : bool,
    run (replicate (length sts) KeyThread) (mkWorld s sts ins true pr pub)
    = mkWorld (exec_all sts s).1 [] ins al (pr ++ (exec_all sts s).2) pub
    /\ (al = false -> Node.running (exec_all sts s).1 = false).
Proof.
  revert s pr. induction sts as [| st rest IH]; intros s pr.
  - exists true. cbn. rewrite app_nil_r. split; [reflexivity | discriminate].
  - assert (Hstep : forall s1 o1,
               exec st s = (s1, o1) -> st <> QuitLoop ->
               exec_all (st :: rest) s
               = ((exec_all rest s1).1, o1 ++ (exec_all rest s1).2)
               /\ run (replicate (length (st :: rest)) KeyThread)
                    (mkWorld s (st :: rest) ins true pr pub)
                  = run (replicate (length rest) KeyThread)
                      (mkWorld s1 rest ins true (pr ++ o1) pub)).
    { intros s1 o1 He Hq. split.
      - destruct st; try congruence; cbn [exec_all]; rewrite He;
          now destruct (exec_all rest s1).
      - cbn [length replicate]. unfold run. cbn [foldl step].
        unfold key_thread_step.
        cbn [alive pending node inputs printed published]. rewrite He.
        destruct st; try congruence; reflexivity. }
    destruct st;
      try (destruct (exec _ s) as [s1 o1] eqn:He;
           destruct (Hstep s1 o1 eq_refl ltac:(discriminate)) as [-> ->];
           destruct (IH s1 (pr ++ o1)) as (al & -> & Hal);
           exists al; cbn [fst snd]; rewrite app_assoc; split; [reflexivity | exact Hal]).
    exists false. split; [| reflexivity].
    cbn [length replicate]. unfold run. cbn [foldl step].
    unfold key_thread_step. cbn [alive pending node inputs printed published exec exec_all fst snd].
    fold (run (replicate (length rest) KeyThread)
            (mkWorld (Node.set_running false s) [] ins false (pr ++ []) pub)).
    rewrite dead_thread_stays by reflexivity. reflexivity.
Qed.

Lemma idle_thread_stays (m : nat) (s : Node.t) (al : bool)
    (pr : list console) (pub : list Msg) :
  node (run (replicate m KeyThread) (mkWorld s [] [] al pr pub)) = s
  /\ printed (run (replicate m KeyThread) (mkWorld s [] [] al pr pub)) = pr.
Proof.
  revert al. induction m as [| m IH]; intros al; [split; reflexivity |].
  cbn [replicate]. unfold run in *. cbn [foldl step].
  unfold key_thread_step. cbn [alive pending node inputs printed published].
  destruct al; [| apply IH].
  destruct (Node.running s); apply IH.
Qed.

Lemma key_thread_alone (ins : list key_input) (s : Node.t)
    (pr : list console) (pub : list Msg) (m : nat) :
  steps_needed ins <= m ->
  node (run (replicate m KeyThread) (mkWorld s [] ins true pr pub))
  = (key_loop ins s).1
  /\ printed (run (replicate m KeyThread) (mkWorld s [] ins true pr pub))
     = pr ++ (key_loop ins s).2.
Proof.
  revert s pr m. induction ins as [| i ins IH]; intros s pr m Hm.
  - destruct (idle_thread_stays m s true pr pub) as [-> ->].
    cbn [key_loop]. destruct (Node.running s); cbn; now rewrite app_nil_r.
  - destruct (Node.running s) eqn:Hr.
    2: { rewrite key_loop_not_running by exact Hr. cbn [fst snd].
         rewrite app_nil_r. destruct m as [| m]; [split; reflexivity |].
         cbn [replicate]. unfold run. cbn [foldl step].
         unfold key_thread_step.
         cbn [alive pending node inputs printed published]. rewrite Hr.
         fold (run (replicate m KeyThread)
                 (mkWorld s [] (i :: ins) false pr pub)).
         rewrite dead_thread_stays by reflexivity. split; reflexivity. }
    destruct i as [k |]; cbn [steps_needed] in Hm.
    + replace m with (1 + (length (loop_body k)
                           + (m - S (length (loop_body k))))) by lia.
      rewrite run_replicate_add.
      assert (H1 : run (replicate 1 KeyThread) (mkWorld s [] (Key k :: ins) true pr pub)
                   = mkWorld s (loop_body k) ins true pr pub).
      { cbn [replicate]. unfold run. cbn [foldl step]. unfold key_thread_step.
        cbn [alive pending node inputs printed published]. now rewrite Hr. }
      rewrite H1, run_replicate_add.
      destruct (key_thread_runs_body (loop_body k) s ins pr pub)
        as (al & -> & Hal).
      fold (process_key k s) in *. cbn [key_loop]. rewrite Hr.
      destruct (process_key k s) as [s1 o1]. cbn [fst snd] in *.
      destruct al.
      * destruct (IH s1 (pr ++ o1) (m - S (length (loop_body k))) ltac:(lia))
          as [-> ->].
        destruct (key_loop ins s1) as [s2 o2]. cbn [fst snd].
        now rewrite app_assoc.
      * rewrite dead_thread_stays by reflexivity.
        rewrite (key_loop_not_running ins s1 (Hal eq_refl)).
        cbn. now rewrite app_nil_r.
    + destruct m as [| m]; [lia |].
      cbn [replicate]. unfold run. cbn [foldl step]. unfold key_thread_step.
      cbn [alive pending node inputs printed published]. rewrite Hr.
      fold (run (replicate m KeyThread)
              (mkWorld (Node.set_running false s) [] ins false
                 (pr ++ [keyboard_thread_exception]) pub)).
      rewrite dead_thread_stays by reflexivity.
      cbn [key_loop]. rewrite Hr. split; reflexivity.
Qed.

(** X9.  However the scheduler interleaves ticks and keyboard steps, once
    the keyboard thread has had enough steps to work through the
    keystrokes delivered, the intent, scales, status counter and [running]
    are those the loop computes when run on its own, and the console shows
    the same lines in the same order. *)
Theorem any_schedule_computes_key_loop (ins : list key_input) (s : Node.t)
    (sched : list action) :
  steps_needed ins <= key_thread_steps sched ->
  velocity_state (node (run sched (start s ins)))
  = velocity_state (get_key_loop ins s).1
  /\ printed (run sched (start s ins)) = (get_key_loop ins s).2.
Proof.
  intros Hm.
  pose proof (run_key_view sched (start s ins) (start s ins) eq_refl) as Hv.
  destruct (key_thread_alone ins s
              [HELP_MSG; vels (Node.speed s) (Node.turn s)] []
              (key_thread_steps sched) Hm) as [Hn Hp].
  unfold start in *.
  pose proof (f_equal (fun t => t.1.1.1.1) Hv) as Hv1.
  pose proof (f_equal (fun t => t.2) Hv) as Hv2.
  unfold key_view in Hv1, Hv2. cbn [fst snd] in Hv1, Hv2.
  rewrite Hv1, Hv2, Hn, Hp. unfold get_key_loop.
  destruct (key_loop ins s). split; reflexivity.
Qed.

Lemma any_schedule_computes_key_loop_witness :
  let ins := [Key "u"; Key "q"; Key CTRL_C; Key "i"] in
  let sched :=
    [Timer 1; KeyThread; KeyThread; Timer 2; KeyThread; KeyThread;
     KeyThread; Timer 3; KeyThread; KeyThread; KeyThread; KeyThread;
     KeyThread; KeyThread; Timer 4; KeyThread; KeyThread; KeyThread;
     KeyThread; KeyThread; KeyThread; Timer 5; KeyThread; KeyThread;
     KeyThread; KeyThread; KeyThread; KeyThread]%Z in
  velocity_state (node (run sched (start (new_node default_params) ins)))
  = velocity_state (get_key_loop ins (new_node default_params)).1
  /\ printed (run sched (start (new_node default_params) ins))
     = (get_key_loop ins (new_node default_params)).2.
Proof.
  intros ins sched.
  apply (any_schedule_computes_key_loop ins (new_node default_params) sched).
  vm_compute. lia.
Defined.

(** ** Headers of the messages of a run *)

Lemma publish_twist_header (now : Time) (s : Node.t) :
  header_of (publish_twist now s).2
  = if Node.stamped s then Some (Header.mk now (Node.frame_id s)) else None.
Proof. destruct s as [[] f r sp tu x y z th m st ru]; reflexivity. Qed.

Lemma exec_config (st : stmt) (s : Node.t) :
  Node.stamped (exec st s).1 = Node.stamped s
  /\ Node.frame_id (exec st s).1 = Node.frame_id s.
Proof. destruct st; split; reflexivity. Qed.

Lemma key_thread_step_config (w : world) :
  Node.stamped (node (key_thread_step w)) = Node.stamped (node w)
  /\ Node.frame_id (node (key_thread_step w)) = Node.frame_id (node w).
Proof.
  destruct w as [s pend ins al pr pub]. unfold key_thread_step.
  cbn [alive pending node inputs printed published].
  destruct al; [| split; reflexivity].
  destruct pend as [| st rest].
  - destruct (Node.running s); [| split; reflexivity].
    destruct ins as [| [k |] ins]; split; reflexivity.
  - pose proof (exec_config st s) as Hc.
    destruct (exec st s) as [s1 out]. destruct st; exact Hc.
Qed.

Lemma run_headers (sched : list action) (w : world) :
  header_of <$> published (run sched w)
  = (header_of <$> published w)
    ++ (tick_header (Node.stamped (node w)) (Node.frame_id (node w))
          <$> tick_times sched).
Proof.
  revert w. induction sched as [| [| now] sched IH]; intros w.
  - cbn. now rewrite app_nil_r.
  - change (run (KeyThread :: sched) w) with (run sched (key_thread_step w)).
    rewrite IH, key_thread_step_published.
    now destruct (key_thread_step_config w) as [-> ->].
  - change (run (Timer now :: sched) w) with (run sched (timer_step now w)).
    rewrite IH, timer_step_published, fmap_app, <- app_assoc.
    cbn [fmap list_fmap app]. rewrite publish_twist_header.
    reflexivity.
Qed.

(** X10.  In stamped mode the k-th message published while [rclpy.spin]
    runs carries the clock reading of the k-th tick and the configured
    frame, whatever the keyboard thread does in between; in plain mode
    every message is a bare twist without header. *)
Theorem tick_messages_carry_their_stamp (p : Params)
    (keys : list key_input) (sched : list action) :
  header_of <$> published (run sched (start (new_node p) keys))
  = tick_header (param_stamped p) (param_frame_id p) <$> tick_times sched.
Proof. now rewrite run_headers. Qed.

(** ** Float arithmetic: signs, zero and the units *)

Lemma shr_1_nonneg (mrs : shr_record) :
  (0 <= shr_m mrs)%Z -> (0 <= shr_m (shr_1 mrs))%Z.
Proof.
  destruct mrs as [m r s]. destruct m as [| p | p]; cbn; intros H;
    try destruct p; cbn; lia.
Qed.

Lemma iter_shr_1_nonneg (p : positive) (mrs : shr_record) :
  (0 <= shr_m mrs)%Z -> (0 <= shr_m (SpecFloat.iter_pos shr_1 p mrs))%Z.
Proof.
  revert mrs. induction p as [p IH | p IH |]; intros mrs H; cbn.
  - apply IH, IH, shr_1_nonneg, H.
  - apply IH, IH, H.
  - apply shr_1_nonneg, H.
Qed.

Lemma shr_fexp_nonneg (m e : Z) (l : location) :
  (0 <= m)%Z -> (0 <= shr_m (shr_fexp prec emax m e l).1)%Z.
Proof.
  intros H. unfold shr_fexp, shr.
  assert (H0 : (0 <= shr_m (shr_record_of_loc m l))%Z)
    by (destruct l as [| []]; exact H).
  destruct (fexp prec emax (Zdigits2 m + e) - e)%Z; cbn [fst]; try exact H0.
  now apply iter_shr_1_nonneg.
Qed.

Lemma round_nearest_even_nonneg (m : Z) (l : location) :
  (0 <= m)%Z -> (0 <= round_nearest_even m l)%Z.
Proof.
  intros H. destruct l as [| []]; cbn; try destruct (Z.even m); lia.
Qed.

(** Rounding a non-negative mantissa gives no negative value and no NaN. *)
Lemma binary_round_aux_sign_clear (m e : Z) (l : location) :
  (0 <= m)%Z ->
  match binary_round_aux prec emax false m e l with
  | S754_zero false | S754_finite false _ _ | S754_infinity false => True
  | _ => False
  end.
Proof.
  intros H. unfold binary_round_aux.
  pose proof (shr_fexp_nonneg m e l H) as H1.
  destruct (shr_fexp prec emax m e l) as [mrs1 e1]. cbn [fst] in H1.
  pose proof (shr_fexp_nonneg _ e1 loc_Exact
                (round_nearest_even_nonneg _ (loc_of_shr_record mrs1) H1)) as H2.
  destruct (shr_fexp prec emax _ e1 loc_Exact) as [mrs2 e2]. cbn [fst] in H2.
  destruct (shr_m mrs2) as [| p | p]; [exact I | | lia].
  destruct (e2 <=? emax - prec)%Z; exact I.
Qed.

Lemma mul_sign_clear (a : float) (b : Py.num) :
  sign_clear a = true ->
  positive_finite b = true ->
  sign_clear (Py.float_mul a b) = true.
Proof.
  unfold sign_clear, positive_finite, Py.float_mul. rewrite mul_spec.
  intros Ha Hb.
  destruct (Prim2SF (Py.to_float b)) as [sb | sb | | [] mb eb];
    try discriminate Hb.
  destruct (Prim2SF a) as [[] | [] | | [] ma ea]; try discriminate Ha;
    cbn [SF64mul SFmul xorb]; try reflexivity.
  pose proof (binary_round_aux_sign_clear (Z.pos (ma * mb)) (ea + eb) loc_Exact
                ltac:(lia)) as H.
  destruct (binary_round_aux prec emax false (Z.pos (ma * mb)) (ea + eb) loc_Exact)
    as [[] | [] | | [] m e]; first [reflexivity | contradiction].
Qed.

Lemma zero_mul_finite (b : float) :
  finite_sign_clear b = true -> (0 * b)%float = 0%float.
Proof.
  unfold finite_sign_clear. intros H. apply Prim2SF_inj. rewrite mul_spec.
  change (Prim2SF 0) with (S754_zero false).
  destruct (Prim2SF b) as [[] | [] | | [] m e];
    first [discriminate H | reflexivity].
Qed.

Lemma digits2_pos_two52_l (m : positive) :
  Z.pos (digits2_pos (4503599627370496 * m)) = (Z.pos (digits2_pos m) + 52)%Z.
Proof. simpl. rewrite Pos.mul_1_l. lia. Qed.

Lemma shift_right_two52_l (m : positive) :
  SpecFloat.iter_pos shr_1 52
    {| shr_m := Z.pos (4503599627370496 * m); shr_r := false; shr_s := false |}
  = {| shr_m := Z.pos m; shr_r := false; shr_s := false |}.
Proof. reflexivity. Qed.

(** Multiplying by 1.0 or -1.0 on the left is exact. *)
Lemma SF64mul_unit_l (sg : bool) (a : spec_float) :
  valid_binary a = true ->
  SF64mul (S754_finite sg 4503599627370496 (-52)) a
  = if sg then SFopp a else a.
Proof.
  destruct a as [sa | sa | | sa m e]; cbn [SF64mul SFmul SFopp];
    try (intros _; first [now destruct sg | now destruct sg, sa]).
  intros Hv.
  unfold SpecFloat.valid_binary, bounded, canonical_mantissa in Hv.
  apply andb_prop in Hv as [Hc He].
  apply Z.eqb_eq in Hc.
  unfold binary_round_aux, shr_fexp.
  cbn [Zdigits2]. rewrite digits2_pos_two52_l.
  replace (Z.pos (digits2_pos m) + 52 + (-52 + e))%Z
    with (Z.pos (digits2_pos m) + e)%Z by lia.
  rewrite Hc.
  replace (e - (-52 + e))%Z with 52%Z by lia.
  cbn [shr shr_record_of_loc]. rewrite shift_right_two52_l.
  cbn [shr_m loc_of_shr_record round_nearest_even Zdigits2].
  replace (-52 + e + 52)%Z with e by lia.
  rewrite Hc, Z.sub_diag. cbn [shr shr_m].
  rewrite He. now destruct sg, sa.
Qed.

Lemma float_one_mul (f : float) : (1 * f)%float = f.
Proof.
  apply Prim2SF_inj. rewrite mul_spec.
  change (Prim2SF 1) with (S754_finite false 4503599627370496 (-52)).
  now rewrite SF64mul_unit_l by apply Prim2SF_valid.
Qed.

Lemma float_neg_one_mul (f : float) : (-1 * f)%float = (- f)%float.
Proof.
  apply Prim2SF_inj. rewrite mul_spec, opp_spec.
  change (Prim2SF (-1)) with (S754_finite true 4503599627370496 (-52)).
  now rewrite SF64mul_unit_l by apply Prim2SF_valid.
Qed.

(** ** The scales over any run of the loop *)

Lemma speed_factors_positive_finite (key : string) (fl fa : Py.num) :
  speed_bindings !! key = Some (fl, fa) ->
  positive_finite fl = true /\ positive_finite fa = true.
Proof.
  intros Hk.
  assert (H : map_Forall
                (fun _ v => positive_finite v.1 = true /\ positive_finite v.2 = true)
                speed_bindings)
    by (apply (bool_decide_unpack _); vm_compute; exact I).
  exact (H key (fl, fa) Hk).
Qed.

Lemma process_key_sign_clear (key : string) (s : Node.t) :
  sign_clear (Node.speed s) = true ->
  sign_clear (Node.turn s) = true ->
  sign_clear (Node.speed (process_key key s).1) = true
  /\ sign_clear (Node.turn (process_key key s).1) = true.
Proof.
  intros Hsp Htu. unfold process_key, loop_body.
  destruct (move_bindings !! key) as [[[[bx by_] bz] bth] |];
    [split; assumption |].
  destruct (speed_bindings !! key) as [[fl fa] |] eqn:Hk.
  - destruct (speed_factors_positive_finite key fl fa Hk) as [Hfl Hfa].
    cbn. split; now apply mul_sign_clear.
  - destruct (String.eqb key CTRL_C); split; assumption.
Qed.

(** X11.  The scales never turn negative and never become NaN: if speed
    and turn are +0, positive or +infinity before a run of the loop, they
    are so after it, whatever the terminal delivers. *)
Theorem scales_keep_their_sign (ins : list key_input) (s : Node.t) :
  sign_clear (Node.speed s) = true ->
  sign_clear (Node.turn s) = true ->
  sign_clear (Node.speed (key_loop ins s).1) = true
  /\ sign_clear (Node.turn (key_loop ins s).1) = true.
Proof.
  revert s. induction ins as [| [k |] ins IH]; intros s Hsp Htu;
    cbn [key_loop]; destruct (Node.running s); cbn [fst];
    try (split; assumption).
  destruct (process_key_sign_clear k s Hsp Htu) as [Hsp1 Htu1].
  destruct (process_key k s) as [s1 o1]. cbn [fst] in *.
  specialize (IH s1 Hsp1 Htu1).
  now destruct (key_loop ins s1).
Qed.

Lemma scales_keep_their_sign_witness :
  sign_clear
    (Node.speed
       (key_loop [Key "z"; Key "i"; Key "e"; ReadError]
          (new_node default_params)).1) = true
  /\ sign_clear
       (Node.turn
          (key_loop [Key "z"; Key "i"; Key "e"; ReadError]
             (new_node default_params)).1) = true.
Proof.
  apply (scales_keep_their_sign [Key "z"; Key "i"; Key "e"; ReadError]
           (new_node default_params)); vm_compute; reflexivity.
Defined.

(** ** What a tick publishes after a key *)

Lemma bound_components_unit (key : string) (bx by_ bz bth : Z) :
  move_bindings !! key = Some (bx, by_, bz, bth) ->
  unit_direction bx = true /\ unit_direction by_ = true
  /\ unit_direction bz = true /\ unit_direction bth = true.
Proof.
  intros Hk.
  assert (H : map_Forall
                (fun _ t =>
                   unit_direction t.1.1.1 = true /\ unit_direction t.1.1.2 = true
                   /\ unit_direction t.1.2 = true /\ unit_direction t.2 = true)
                move_bindings)
    by (apply (bool_decide_unpack _); vm_compute; exact I).
  exact (H key (bx, by_, bz, bth) Hk).
Qed.

Lemma mul_float_signed (b : Z) (v : float) :
  unit_direction b = true ->
  finite_sign_clear v = true ->
  Py.mul_float (Py.Int b) v = signed b v.
Proof.
  intros Hb Hv. unfold Py.mul_float.
  destruct b as [| [p | p |] | [p | p |]]; try discriminate Hb; cbn [signed].
  - change (Py.to_float (Py.Int 0)) with 0%float. now apply zero_mul_finite.
  - change (Py.to_float (Py.Int 1)) with 1%float. apply float_one_mul.
  - change (Py.to_float (Py.Int (-1))) with (-1)%float. apply float_neg_one_mul.
Qed.

(** X12.  With finite scales, after a movement key every published
    component is exactly the scale, its negation or zero, as the bound
    direction is 1, -1 or 0: no rounding enters. *)
Theorem movement_publishes_the_scale_exactly (key : string)
    (bx by_ bz bth : Z) (s : Node.t) (now : Time) :
  move_bindings !! key = Some (bx, by_, bz, bth) ->
  finite_sign_clear (Node.speed s) = true ->
  finite_sign_clear (Node.turn s) = true ->
  twist_of (publish_twist now (process_key key s).1).2
  = Twist.mk
      (Vector3.mk (signed bx (Node.speed s)) (signed by_ (Node.speed s))
                  (signed bz (Node.speed s)))
      (Vector3.mk 0 0 (signed bth (Node.turn s))).
Proof.
  intros Hk Hsp Htu.
  destruct (bound_components_unit key bx by_ bz bth Hk) as (Hx & Hy & Hz & Hth).
  rewrite publish_twist_twist, (process_move_key key bx by_ bz bth s Hk).
  cbn [Node.x Node.y Node.z Node.th Node.speed Node.turn
       Node.set_x Node.set_y Node.set_z Node.set_th].
  now rewrite !mul_float_signed.
Qed.

Lemma movement_publishes_the_scale_exactly_witness :
  twist_of
    (publish_twist 0%Z
       (process_key "." (key_loop [Key "q"] (new_node default_params)).1).1).2
  = Twist.mk
      (Vector3.mk
         (signed (-1) (Node.speed (key_loop [Key "q"] (new_node default_params)).1))
         (signed 0 (Node.speed (key_loop [Key "q"] (new_node default_params)).1))
         (signed 0 (Node.speed (key_loop [Key "q"] (new_node default_params)).1)))
      (Vector3.mk 0 0
         (signed 1 (Node.turn (key_loop [Key "q"] (new_node default_params)).1))).
Proof.
  apply (movement_publishes_the_scale_exactly "." (-1) 0 0 1
           (key_loop [Key "q"] (new_node default_params)).1 0%Z);
    vm_compute; reflexivity.
Defined.

Lemma process_unbound_key (key : string) (s : Node.t) :
  move_bindings !! key = None ->
  speed_bindings !! key = None ->
  Node.intent (process_key key s).1 = zero_intent
  /\ Node.scales (process_key key s).1 = Node.scales s.
Proof.
  intros Hm Hs. unfold process_key, loop_body. rewrite Hm, Hs.
  destruct (String.eqb key CTRL_C); split; reflexivity.
Qed.

Lemma publish_twist_zero_intent (now : Time) (s : Node.t) :
  Node.intent s = zero_intent ->
  twist_of (publish_twist now s).2
  = Twist.mk
      (Vector3.mk (0 * Node.speed s) (0 * Node.speed s) (0 * Node.speed s))
      (Vector3.mk 0 0 (0 * Node.turn s)).
Proof.
  unfold Node.intent, zero_intent. intros [= Hx Hy Hz Hth].
  rewrite publish_twist_twist, Hx, Hy, Hz, Hth. reflexivity.
Qed.

(** X13.  With finite scales, a key bound nowhere makes the next tick
    publish exactly zero in all six fields. *)
Theorem unbound_key_publishes_zero (key : string) (s : Node.t) (now : Time) :
  move_bindings !! key = None ->
  speed_bindings !! key = None ->
  finite_sign_clear (Node.speed s) = true ->
  finite_sign_clear (Node.turn s) = true ->
  twist_of (publish_twist now (process_key key s).1).2 = Twist.default.
Proof.
  intros Hm Hs Hsp Htu.
  destruct (process_unbound_key key s Hm Hs) as [Hi Hsc].
  pose proof (f_equal fst Hsc) as Hsp1. pose proof (f_equal snd Hsc) as Htu1.
  cbn [fst snd Node.scales] in Hsp1, Htu1.
  rewrite (publish_twist_zero_intent now _ Hi), Hsp1, Htu1.
  rewrite !zero_mul_finite by assumption. reflexivity.
Qed.

Lemma unbound_key_publishes_zero_witness :
  twist_of
    (publish_twist 0%Z
       (process_key "k" (key_loop [Key "u"; Key "q"] (new_node default_params)).1).1).2
  = Twist.default.
Proof.
  apply (unbound_key_publishes_zero "k"
           (key_loop [Key "u"; Key "q"] (new_node default_params)).1 0%Z);
    vm_compute; reflexivity.
Defined.

(** X14.  Nothing bounds the scales, and the stop relies on them being
    finite: once the linear scale has overflowed to +infinity, a key bound
    nowhere makes the next tick publish NaN, not zero, in the three linear
    fields.  7500 presses of [w] from the defaults reach that state. *)
Theorem overflowed_scale_breaks_the_stop (key : string) (s : Node.t)
    (now : Time) :
  move_bindings !! key = None ->
  speed_bindings !! key = None ->
  Node.speed s = infinity ->
  Twist.linear (twist_of (publish_twist now (process_key key s).1).2)
  = Vector3.mk nan nan nan.
Proof.
  intros Hm Hs Hsp.
  destruct (process_unbound_key key s Hm Hs) as [Hi Hsc].
  pose proof (f_equal fst Hsc) as Hsp1. cbn [fst Node.scales] in Hsp1.
  rewrite (publish_twist_zero_intent now _ Hi), Hsp1, Hsp. reflexivity.
Qed.

Lemma overflowed_scale_breaks_the_stop_witness :
  Twist.linear
    (twist_of
       (publish_twist 0%Z
          (process_key " "
             (key_loop (Key <$> replicate (Z.to_nat 7500) "w") (new_node default_params)).1).1).2)
  = Vector3.mk nan nan nan.
Proof.
  apply (overflowed_scale_breaks_the_stop " "
           (key_loop (Key <$> replicate (Z.to_nat 7500) "w") (new_node default_params)).1 0%Z);
    vm_compute; reflexivity.
Defined.

(** ** The terminal settings *)


(** ** [__init__] and [main] *)

Lemma run_alive_running (sched : list action) (w : world) :
  alive w = Node.running (node w) ->
  alive (run sched w) = Node.running (node (run sched w)).
Proof.
  revert w. induction sched as [| [| now] sched IH]; intros w Hw;
    [exact Hw | |].
  - change (run (KeyThread :: sched) w) with (run sched (key_thread_step w)).
    apply IH. destruct w as [s pend ins al pr pub].
    unfold key_thread_step in *.
    cbn [alive pending node inputs printed published] in *. subst al.
    destruct (Node.running s) eqn:Hr; [| cbn; rewrite Hr; reflexivity].
    destruct pend as [| st rest].
    + destruct ins as [| [k |] ins]; cbn; rewrite ?Hr; reflexivity.
    + destruct st; cbn; rewrite ?Hr; reflexivity.
  - change (run (Timer now :: sched) w) with (run sched (timer_step now w)).
    apply IH. exact Hw.
Qed.




Lemma timer_only_run (nows : list Time) (w : world) :
  velocity_state (node (run (Timer <$> nows) w)) = velocity_state (node w)
  /\ twist_of <$> published (run (Timer <$> nows) w)
     = (twist_of <$> published w)
       ++ replicate (length nows) (twist_of (publish_twist 0%Z (node w)).2).
Proof.
  revert w. induction nows as [| now nows IH]; intros w.
  - cbn. now rewrite app_nil_r.
  - change (run (Timer <$> now :: nows) w)
      with (run (Timer <$> nows) (timer_step now w)).
    destruct (IH (timer_step now w)) as [-> ->].
    split; [reflexivity |].
    rewrite timer_step_published, fmap_app, <- app_assoc.
    cbn [fmap list_fmap app length replicate].
    now rewrite !publish_twist_twist.
Qed.

(** X18.  Ticks alone change nothing of the velocity state, and while no
    key is processed every tick publishes the same six velocity fields:
    the messages of consecutive ticks differ at most in their stamp. *)
Theorem idle_ticks_repeat_the_command (nows : list Time) (w : world) :
  velocity_state (node (run (Timer <$> nows) w)) = velocity_state (node w)
  /\ twist_of <$> published (run (Timer <$> nows) w)
     = (twist_of <$> published w)
       ++ replicate (length nows) (twist_of (publish_twist 0%Z (node w)).2).
Proof. apply timer_only_run. Qed.
